(** * Laboratório de Física: the simulation core, embedded and verified

    A shallow embedding of the stepping code of the physics demonstrations
    (src/components/*.tsx) together with the properties the specification
    states about it.

    Numbers.  The source computes with JavaScript [number]s.  They are
    idealised here as real numbers: [+ - * /] are the field operations,
    [Math.sqrt], [Math.sin], [Math.cos] and [Math.PI] are [sqrt], [sin],
    [cos] and [PI], comparisons are the order of the reals.  Rounding,
    NaN and the infinities are outside the model.

    Mutable cells.  A React ref or state cell becomes a record field and
    every callback becomes a function from the old record to the new one. *)

From Stdlib Require Import Reals Lra Lia ZArith String.
From stdpp Require Import base list.

Open Scope R_scope.

(** ** Shared vocabulary *)

(** A JavaScript number, idealised. *)
Abbreviation number := R (only parsing).

(** The comparisons of the source as boolean tests. *)
Definition gtb (a b : number) : bool := if Rlt_dec b a then true else false.
Definition geb (a b : number) : bool := if Rle_dec b a then true else false.
Definition ltb (a b : number) : bool := if Rlt_dec a b then true else false.

(** [a || b] on numbers: [b] when [a] is 0 (NaN is outside the model). *)
Definition orElse (a b : number) : number :=
  if Req_dec_T a 0 then b else a.

(** The integration scheme the specification names, written from its
    glossary entry: velocity from acceleration first, then position from
    the updated velocity.  The result is the pair (position, velocity). *)
Module Spec.

Definition semi_implicit_euler (a dt : number) (xv : number * number)
  : number * number :=
  let v' := snd xv + a * dt in
  (fst xv + v' * dt, v').

End Spec.

(** ** SimplePendulum.tsx *)
Module SimplePendulum.

(** The slider values the stepping code reads. *)
Record Params := {
  length : number;
  mass : number;
  initialAngle : number;
  gravity : number
}.

(** The object held in the [simulationState] ref. *)
Record State := {
  angle : number;
  angularVelocity : number;
  time : number;
  lastUpdateTime : number
}.

(** [const deltaTime = (timestamp - lastUpdateTime) / 1000], computed only
    under the guard [lastUpdateTime > 0]. *)
Definition deltaTime (timestamp : number) (s : State) : option number :=
  if gtb (lastUpdateTime s) 0
  then Some ((timestamp - lastUpdateTime s) / 1000)
  else None.

(** The body of the guarded block of [animate], lines 109-115. *)
Definition integrate (p : Params) (dt : number) (s : State) : State :=
  let angularAcceleration := - (gravity p / length p) * angle s in
  let w1 := angularVelocity s + angularAcceleration * dt in
  let w2 := w1 * 0.999 in
  let a1 := angle s + w2 * dt in
  {| angle := a1; angularVelocity := w2; time := time s + dt;
     lastUpdateTime := lastUpdateTime s |}.

(** [animate(timestamp)]: integrate when a baseline exists, then record
    the timestamp as the next baseline. *)
Definition animate (p : Params) (timestamp : number) (s : State) : State :=
  let s1 := match deltaTime timestamp s with
            | Some dt => integrate p dt s
            | None => s
            end in
  {| angle := angle s1; angularVelocity := angularVelocity s1;
     time := time s1; lastUpdateTime := timestamp |}.

(** The effect run when [isRunning] becomes true: the baseline is set to
    the current reading of [performance.now()]. *)
Definition start (now : number) (s : State) : State :=
  {| angle := angle s; angularVelocity := angularVelocity s;
     time := time s; lastUpdateTime := now |}.

(** [resetState]: the ref is replaced by a fresh object. *)
Definition resetState (p : Params) (s : State) : State :=
  let newAngleRad := (initialAngle p * PI) / 180 in
  {| angle := newAngleRad; angularVelocity := 0; time := 0;
     lastUpdateTime := 0 |}.

(** The frame loop: [animate] called once per frame with that frame's
    timestamp. *)
Definition run (p : Params) (timestamps : list number) (s : State) : State :=
  foldl (fun s timestamp => animate p timestamp s) s timestamps.

Definition totalEnergy (p : Params) : number :=
  let initialAngleRad := (initialAngle p * PI) / 180 in
  0.5 * mass p * gravity p * length p * initialAngleRad ^ 2.
Definition potentialEnergy (p : Params) (s : State) : number :=
  0.5 * mass p * gravity p * length p * angle s ^ 2.
Definition kineticEnergy (p : Params) (s : State) : number :=
  Rmax 0 (totalEnergy p - potentialEnergy p s).

(** The fill of an [EnergyBar], in percent. *)
Definition percentage (value max : number) : number :=
  if gtb max 0 then (value / max) * 100 else 0.

(** The two bars as rendered, with [max = totalEnergy || 1]. *)
Definition kineticBar (p : Params) (s : State) : number :=
  percentage (kineticEnergy p s) (orElse (totalEnergy p) 1).
Definition potentialBar (p : Params) (s : State) : number :=
  percentage (potentialEnergy p s) (orElse (totalEnergy p) 1).


End SimplePendulum.

(** ** InclinedPlane.tsx, component [InclinedPlane] *)
Module InclinedPlane.

Definition GRAVITY : number := 9.81.

(** The slider values. *)
Record Params := {
  angle : number;      (* degrees *)
  mass : number;
  friction : number
}.

(** The object held in the [simulationState] ref, and the [isRunning]
    state cell that [animate] may clear. *)
Record State := {
  position : number;
  velocity : number;
  time : number;
  lastUpdateTime : number;
  isRunning : bool
}.

(** The [calculations] memo: the net acceleration down the plane. *)
Definition acceleration (p : Params) : number :=
  let angleRad := (angle p * PI) / 180 in
  let forceParallel := mass p * GRAVITY * sin angleRad in
  let forceNormal := mass p * GRAVITY * cos angleRad in
  let forceFriction := friction p * forceNormal in
  let netForce := forceParallel - forceFriction in
  if gtb netForce 0 then netForce / mass p else 0.

Definition maxPosition : number := 15.

Definition deltaTime (timestamp : number) (s : State) : option number :=
  if gtb (lastUpdateTime s) 0
  then Some ((timestamp - lastUpdateTime s) / 1000)
  else None.

(** The body of the guarded block of [animate], lines 111-118. *)
Definition integrate (p : Params) (dt : number) (s : State) : State :=
  let v1 := velocity s + acceleration p * dt in
  let x1 := position s + v1 * dt in
  let t1 := time s + dt in
  if geb x1 maxPosition
  then {| position := maxPosition; velocity := v1; time := t1;
          lastUpdateTime := lastUpdateTime s; isRunning := false |}
  else {| position := x1; velocity := v1; time := t1;
          lastUpdateTime := lastUpdateTime s; isRunning := isRunning s |}.

Definition animate (p : Params) (timestamp : number) (s : State) : State :=
  let s1 := match deltaTime timestamp s with
            | Some dt => integrate p dt s
            | None => s
            end in
  {| position := position s1; velocity := velocity s1; time := time s1;
     lastUpdateTime := timestamp; isRunning := isRunning s1 |}.

(** The effect run when [isRunning] becomes true. *)
Definition start (now : number) (s : State) : State :=
  {| position := position s; velocity := velocity s; time := time s;
     lastUpdateTime := now; isRunning := true |}.

Definition resetState (s : State) : State :=
  {| position := 0; velocity := 0; time := 0; lastUpdateTime := 0;
     isRunning := false |}.

Definition run (p : Params) (timestamps : list number) (s : State) : State :=
  foldl (fun s timestamp => animate p timestamp s) s timestamps.

(** [draw]: the plane and the block on a canvas of the given size. *)
Definition angleRad (p : Params) : number := (angle p * PI) / 180.


End InclinedPlane.

(** ** MRU.tsx *)
Module MRU.

Record Params := {
  initialPosition : number;
  velocity : number;
  totalTime : number
}.

(** The cells the stepping code writes: the [lastTimeRef] ref (nullable),
    the [elapsedTime] and [isRunning] state cells, and the sliders, which
    [handleReset] overwrites. *)
Record State := {
  params : Params;
  lastTimeRef : option number;
  elapsedTime : number;
  isRunning : bool
}.

(** The [currentPosition] memo. *)
Definition currentPosition (s : State) : number :=
  initialPosition (params s) + velocity (params s) * elapsedTime s.

(** [deltaTime] of [animate]: a null baseline is first replaced by the
    timestamp itself. *)
Definition deltaTime (timestamp : number) (s : State) : number :=
  let last := match lastTimeRef s with
              | None => timestamp
              | Some l => l
              end in
  (timestamp - last) / 1000.

Definition animate (timestamp : number) (s : State) : State :=
  let dt := deltaTime timestamp s in
  let newTime := elapsedTime s + dt in
  if geb newTime (totalTime (params s))
  then {| params := params s; lastTimeRef := Some timestamp;
          elapsedTime := totalTime (params s); isRunning := false |}
  else {| params := params s; lastTimeRef := Some timestamp;
          elapsedTime := newTime; isRunning := isRunning s |}.

(** [handlePlayPause] pressed while paused, followed by the effect on
    [isRunning], which clears the baseline. *)
Definition start (s : State) : State :=
  {| params := params s; lastTimeRef := None;
     elapsedTime := if geb (elapsedTime s) (totalTime (params s))
                    then 0 else elapsedTime s;
     isRunning := true |}.

Definition handleReset (s : State) : State :=
  {| params := {| initialPosition := 0; velocity := 10; totalTime := 10 |};
     lastTimeRef := lastTimeRef s; elapsedTime := 0; isRunning := false |}.

Definition run (timestamps : list number) (s : State) : State :=
  foldl (fun s timestamp => animate timestamp s) s timestamps.

(** The canvas effect: the window of world coordinates shown, and the map
    from a world coordinate to a pixel column. *)
Definition posStart (q : Params) : number := initialPosition q.
Definition posEnd (q : Params) : number :=
  initialPosition q + velocity q * totalTime q.
Definition padding (q : Params) : number :=
  orElse (Rabs (posEnd q - posStart q) * 0.1) 5.
Definition minWorldX (q : Params) : number :=
  Rmin (posStart q) (posEnd q) - padding q.
Definition maxWorldX (q : Params) : number :=
  Rmax (posStart q) (posEnd q) + padding q.
Definition worldWidth (q : Params) : number := maxWorldX q - minWorldX q.
Definition mapX (q : Params) (width worldX : number) : number :=
  if Req_dec_T (worldWidth q) 0 then width / 2
  else ((worldX - minWorldX q) / worldWidth q) * width.

End MRU.

(** ** MRUV.tsx *)
Module MRUV.

Record Params := {
  initialPosition : number;
  initialVelocity : number;
  acceleration : number;
  totalTime : number
}.

Record State := {
  params : Params;
  lastTimeRef : option number;
  elapsedTime : number;
  isRunning : bool
}.

(** The [currentValues] memo: closed forms in the elapsed time. *)
Definition position (s : State) : number :=
  let t := elapsedTime s in
  initialPosition (params s) + initialVelocity (params s) * t
  + 0.5 * acceleration (params s) * t * t.

Definition velocity (s : State) : number :=
  let t := elapsedTime s in
  initialVelocity (params s) + acceleration (params s) * t.

Definition deltaTime (timestamp : number) (s : State) : number :=
  let last := match lastTimeRef s with
              | None => timestamp
              | Some l => l
              end in
  (timestamp - last) / 1000.

Definition animate (timestamp : number) (s : State) : State :=
  let dt := deltaTime timestamp s in
  let newTime := elapsedTime s + dt in
  if geb newTime (totalTime (params s))
  then {| params := params s; lastTimeRef := Some timestamp;
          elapsedTime := totalTime (params s); isRunning := false |}
  else {| params := params s; lastTimeRef := Some timestamp;
          elapsedTime := newTime; isRunning := isRunning s |}.

Definition start (s : State) : State :=
  {| params := params s; lastTimeRef := None;
     elapsedTime := if geb (elapsedTime s) (totalTime (params s))
                    then 0 else elapsedTime s;
     isRunning := true |}.

Definition handleReset (s : State) : State :=
  {| params := {| initialPosition := 0; initialVelocity := 5;
                  acceleration := 2; totalTime := 10 |};
     lastTimeRef := lastTimeRef s; elapsedTime := 0; isRunning := false |}.

Definition run (timestamps : list number) (s : State) : State :=
  foldl (fun s timestamp => animate timestamp s) s timestamps.

End MRUV.

(** ** InclinedPlane.tsx, component [ProjectileMotion] *)
Module ProjectileMotion.

(** The file-level constant [GRAVITY], shared with the incline. *)
Definition GRAVITY : number := InclinedPlane.GRAVITY.

Record Params := {
  velocity : number;
  angle : number;      (* degrees *)
  height : number
}.

(** One element of the precomputed trajectory. *)
Record Sample := {
  time : number;
  x : number;
  y : number
}.

Definition angleRad (p : Params) : number := (angle p * PI) / 180.
Definition v0x (p : Params) : number := velocity p * cos (angleRad p).
Definition v0y (p : Params) : number := velocity p * sin (angleRad p).

(** Computed by the same expression in both memos. *)
Definition timeOfFlight (p : Params) : number :=
  (v0y p + sqrt (v0y p ^ 2 + 2 * GRAVITY * height p)) / GRAVITY.

Definition steps : nat := 100.

(** The height of the analytic trajectory at time [t]. *)
Definition heightAt (p : Params) (t : number) : number :=
  height p + v0y p * t - 0.5 * GRAVITY * t ^ 2.

(** One turn of the sampling loop: the sample is pushed only when its
    height is not negative. *)
Definition sampleAt (p : Params) (i : nat) : list Sample :=
  let t := (INR i / INR steps) * timeOfFlight p in
  let x := v0x p * t in
  let y := heightAt p t in
  if geb y 0 then [ {| time := t; x := x; y := y |} ] else [].

(** The [trajectoryData] memo: the loop for [i = 0 .. steps], then the
    unconditional final push. *)
Definition trajectoryData (p : Params) : list Sample :=
  let data := flat_map (sampleAt p) (seq 0 (S steps)) in
  let finalX := v0x p * timeOfFlight p in
  data ++ [ {| time := timeOfFlight p; x := finalX; y := 0 |} ].

(** The [calculations] memo. *)
Definition timeToMaxHeight (p : Params) : number := v0y p / GRAVITY.
Definition maxHeight (p : Params) : number :=
  height p + (v0y p ^ 2) / (2 * GRAVITY).
Definition range (p : Params) : number :=
  velocity p * cos (angleRad p) * timeOfFlight p.


(** *** Playback *)

(** The cells of the playback: [animationProgress] in percent, the
    nullable [startTimeRef] and [lastProgressRef]. *)
Record Playback := {
  isRunning : bool;
  animationProgress : number;
  startTimeRef : option number;
  lastProgressRef : number
}.

Definition animationDuration : number := 3000.

(** [step(timestamp)].  The test [!startTimeRef.current] also takes a
    recorded start of 0 for a missing one. *)
Definition step (timestamp : number) (a : Playback) : Playback :=
  let start := match startTimeRef a with
               | None => timestamp
               | Some t => if Req_dec_T t 0 then timestamp else t
               end in
  let elapsedSinceStart := timestamp - start in
  let progress := Rmin ((elapsedSinceStart / animationDuration) * 100) 100 in
  let totalProgress := lastProgressRef a + progress in
  if ltb totalProgress 100
  then {| isRunning := isRunning a; animationProgress := totalProgress;
          startTimeRef := Some start; lastProgressRef := lastProgressRef a |}
  else {| isRunning := false; animationProgress := 100;
          startTimeRef := None; lastProgressRef := 0 |}.

(** [Math.ceil], as an integer. *)
Definition ceil (a : number) : Z := (- Int_part (- a))%Z.

(** [array.slice(0, endIndex)]: a negative end counts from the back. *)
Definition slice0 {A} (endIndex : Z) (l : list A) : list A :=
  if (endIndex <? 0)%Z
  then take (Z.to_nat (Z.of_nat (List.length l) + endIndex)) l
  else take (Z.to_nat endIndex) l.

(** The [displayedTrajectory] memo. *)
Definition displayedTrajectory (p : Params) (animationProgress : number)
  : list Sample :=
  let data := trajectoryData p in
  let endIndex := ceil (INR (List.length data) * (animationProgress / 100)) in
  slice0 endIndex data.

End ProjectileMotion.

(** ** ParticleSimulator.tsx *)
Module ParticleSimulator.

Record Particle := {
  x : number;
  y : number;
  vx : number;
  vy : number;
  radius : number;
  mass : number;
  charge : number;   (* -1 electron, 1 proton, 0 neutron *)
  color : string
}.

Definition G : number := 0.5.
Definition k : number := 10.

(** The drawing surface, as far as the engine reads it. *)
Record Canvas := {
  width : number;
  height : number
}.

(** The cells of the component: the population, the running flag and the
    canvas ref, which is null until the canvas is mounted. *)
Record State := {
  particles : list Particle;
  isRunning : bool;
  canvasRef : option Canvas
}.

(** *** Random draws

    [Math.random()] is a source of numbers in [0, 1) that the code cannot
    see ahead of: [draws] is the sequence it will deliver and [cursor]
    counts the calls made so far. *)
Record Rng := {
  draws : nat -> number;
  cursor : nat
}.

Definition random (r : Rng) : number * Rng :=
  (draws r (cursor r), {| draws := draws r; cursor := S (cursor r) |}).

(** [Math.floor]. *)
Definition floor (a : number) : number := IZR (Int_part a).

Definition eqb (a b : number) : bool :=
  if Req_dec_T a b then true else false.

(** One turn of the population loop of [resetSimulation]: five draws, in
    the order charge, x, y, vx, vy. *)
Definition newParticle (cv : Canvas) (r0 : Rng) : Particle * Rng :=
  let '(u0, r1) := random r0 in
  let charge := floor (u0 * 3) - 1 in
  let '(color, mass, radius) :=
    if eqb charge 1 then ("#38bdf8"%string, 2, 3)
    else if eqb charge (-1) then ("#f43f5e"%string, 1, 2)
    else ("#a1a1aa"%string, 2.1, 3) in
  let '(u1, r2) := random r1 in
  let '(u2, r3) := random r2 in
  let '(u3, r4) := random r3 in
  let '(u4, r5) := random r4 in
  ({| x := u1 * width cv; y := u2 * height cv;
      vx := (u3 - 0.5) * 2; vy := (u4 - 0.5) * 2;
      radius := radius; mass := mass; charge := charge; color := color |},
   r5).

Fixpoint resetLoop (n : nat) (cv : Canvas) (r : Rng)
    (newParticles : list Particle) : list Particle * Rng :=
  match n with
  | O => (newParticles, r)
  | S n' =>
      let '(p, r') := newParticle cv r in
      resetLoop n' cv r' (newParticles ++ [p])
  end.

(** [resetSimulation]: stop, and unless the canvas is missing replace the
    population by 50 freshly drawn particles. *)
Definition resetSimulation (s : State) (r : Rng) : State * Rng :=
  match canvasRef s with
  | None =>
      ({| particles := particles s; isRunning := false;
          canvasRef := canvasRef s |}, r)
  | Some cv =>
      let '(newParticles, r') := resetLoop 50 cv r [] in
      ({| particles := newParticles; isRunning := false;
          canvasRef := canvasRef s |}, r')
  end.

(** *** The force loop *)

(** The body of the inner loop for one [j <> i], lines 100-113; [f] is
    the pair [(fx, fy)] accumulated so far. *)
Definition pairForce (gravity electrostatics : number) (pi pj : Particle)
    (f : number * number) : number * number :=
  let dx := x pj - x pi in
  let dy := y pj - y pi in
  let distSq := dx * dx + dy * dy in
  let dist := sqrt distSq in
  if gtb dist 2 then
    let forceGrav := (G * gravity * mass pi * mass pj) / distSq in
    let fx1 := fst f + forceGrav * (dx / dist) in
    let fy1 := snd f + forceGrav * (dy / dist) in
    let forceElec := (k * electrostatics * charge pi * charge pj) / distSq in
    (fx1 - forceElec * (dx / dist), fy1 - forceElec * (dy / dist))
  else f.

(** The inner loop over [j], walking the array from index [j]. *)
Fixpoint forceLoop (gravity electrostatics : number) (i : nat)
    (pi : Particle) (j : nat) (rest : list Particle)
    (f : number * number) : number * number :=
  match rest with
  | [] => f
  | pj :: rest' =>
      forceLoop gravity electrostatics i pi (S j) rest'
        (if Nat.eqb i j then f else pairForce gravity electrostatics pi pj f)
  end.

(** [(ax, ay)] of body [pi], which sits at index [i] of [ps]. *)
Definition acceleration (gravity electrostatics : number)
    (ps : list Particle) (i : nat) (pi : Particle) : number * number :=
  let f := forceLoop gravity electrostatics i pi 0 ps (0, 0) in
  (fst f / mass pi, snd f / mass pi).

(** Lines 119-122: velocity then position, a whole frame at once. *)
Definition integrate (a : number * number) (p : Particle) : Particle :=
  let vx1 := vx p + fst a in
  let vy1 := vy p + snd a in
  {| x := x p + vx1; y := y p + vy1; vx := vx1; vy := vy1;
     radius := radius p; mass := mass p; charge := charge p;
     color := color p |}.

(** Lines 124-128: the wall collisions. *)
Definition wallCollisions (cv : Canvas) (p : Particle) : Particle :=
  let vx1 := if ltb (x p) 0 || gtb (x p) (width cv)
             then vx p * -0.8 else vx p in
  let vy1 := if ltb (y p) 0 || gtb (y p) (height cv)
             then vy p * -0.8 else vy p in
  {| x := Rmax 0 (Rmin (width cv) (x p));
     y := Rmax 0 (Rmin (height cv) (y p));
     vx := vx1; vy := vy1;
     radius := radius p; mass := mass p; charge := charge p;
     color := color p |}.

(** One turn of the outer loop: body [i] is rewritten in place, so the
    turns after it read its new position. *)
Definition updateParticle (cv : Canvas) (gravity electrostatics : number)
    (newParticles : list Particle) (i : nat) : list Particle :=
  match newParticles !! i with
  | None => newParticles
  | Some pi =>
      let a := acceleration gravity electrostatics newParticles i pi in
      <[ i := wallCollisions cv (integrate a pi) ]> newParticles
  end.

(** The array after the first [m] turns of the outer loop. *)
Definition turns (cv : Canvas) (gravity electrostatics : number) (m : nat)
    (prevParticles : list Particle) : list Particle :=
  foldl (updateParticle cv gravity electrostatics) prevParticles (seq 0 m).

(** The updater passed to [setParticles] by [gameLoop]. *)
Definition gameLoop (canvas : option Canvas) (gravity electrostatics : number)
    (prevParticles : list Particle) : list Particle :=
  match canvas with
  | None => prevParticles
  | Some cv =>
      turns cv gravity electrostatics (List.length prevParticles)
        prevParticles
  end.

(** The frame driver: [requestAnimationFrame] calls [gameLoop] once per
    frame and passes the frame's timestamp, which [gameLoop], declared
    without parameters, never receives. *)
Definition frame (canvas : option Canvas) (gravity electrostatics : number)
    (ps : list Particle) (timestamp : number) : list Particle :=
  gameLoop canvas gravity electrostatics ps.

Definition runFrames (canvas : option Canvas)
    (gravity electrostatics : number) (timestamps : list number)
    (ps : list Particle) : list Particle :=
  foldl (frame canvas gravity electrostatics) ps timestamps.

End ParticleSimulator.

(** ** WaveInterference.tsx *)
Module WaveInterference.

Record Params := {
  wavelength : number;
  distance : number;
  amplitude : number;
  waveSpeed : number
}.

(** [phaseRef] and the [lastTime] variable of the drawing effect. *)
Record State := {
  phase : number;
  lastTime : number
}.

(** The clock part of [animate]. *)
Definition animate (p : Params) (currentTime : number) (s : State) : State :=
  let phase1 :=
    if gtb (lastTime s) 0
    then let deltaTime := (currentTime - lastTime s) / 1000 in
         phase s - waveSpeed p * PI * deltaTime
    else phase s in
  {| phase := phase1; lastTime := currentTime |}.

Definition run (p : Params) (timestamps : list number) (s : State) : State :=
  foldl (fun s currentTime => animate p currentTime s) s timestamps.

Definition k (p : Params) : number := (2 * PI) / wavelength p.

Definition source1 (p : Params) (width height : number) : number * number :=
  (width / 4, height / 2 - distance p / 2).
Definition source2 (p : Params) (width height : number) : number * number :=
  (width / 4, height / 2 + distance p / 2).

(** The sum of the two waves at the point [(x, y)]. *)
Definition value (p : Params) (width height phase x y : number) : number :=
  let d1 := sqrt ((x - fst (source1 p width height)) ^ 2
                  + (y - snd (source1 p width height)) ^ 2) in
  let d2 := sqrt ((x - fst (source2 p width height)) ^ 2
                  + (y - snd (source2 p width height)) ^ 2) in
  sin (k p * d1 + phase) + sin (k p * d2 + phase).

(** The number written to the red channel of pixel [(x, y)], before the
    image buffer clamps it. *)
Definition brightness (p : Params) (width height phase : number)
    (x y : nat) : number :=
  ParticleSimulator.floor
    (amplitude p * (1 + value p width height phase (INR x) (INR y))).

End WaveInterference.

(** ** Vocabulary of the statements

    States, parameter sets and predicates the properties below are stated
    with. *)

(** The pendulum state whose baseline is [last]. *)
Definition pendulumAt (a w t last : number) : SimplePendulum.State :=
  {| SimplePendulum.angle := a; SimplePendulum.angularVelocity := w;
     SimplePendulum.time := t; SimplePendulum.lastUpdateTime := last |}.

(** C1, as the specification states it, read on the pendulum: some finite
    bound caps the delta of every pair of consecutive timestamps. *)
Definition pendulum_delta_clamped : Prop :=
  exists bound : number,
    forall (a w t last timestamp dt : number),
      0 < last <= timestamp ->
      SimplePendulum.deltaTime timestamp (pendulumAt a w t last) = Some dt ->
      0 <= dt <= bound.

(** The values the sliders of each demo start with. *)
Definition pendulumDefaults : SimplePendulum.Params :=
  {| SimplePendulum.length := 2; SimplePendulum.mass := 1;
     SimplePendulum.initialAngle := 30; SimplePendulum.gravity := 9.81 |}.

Definition mruvDefaults : MRUV.Params :=
  {| MRUV.initialPosition := 0; MRUV.initialVelocity := 5;
     MRUV.acceleration := 2; MRUV.totalTime := 10 |}.

Definition inclineDefaults : InclinedPlane.Params :=
  {| InclinedPlane.angle := 30; InclinedPlane.mass := 5;
     InclinedPlane.friction := 0.2 |}.

Definition projectileDefaults : ProjectileMotion.Params :=
  {| ProjectileMotion.velocity := 50; ProjectileMotion.angle := 45;
     ProjectileMotion.height := 0 |}.

(** The particle built from five given draws. *)
Definition particleOf (cv : ParticleSimulator.Canvas)
    (u0 u1 u2 u3 u4 : number) : ParticleSimulator.Particle :=
  fst (ParticleSimulator.newParticle cv
         {| ParticleSimulator.draws := fun n =>
              match n with
              | 0%nat => u0 | 1%nat => u1 | 2%nat => u2 | 3%nat => u3
              | _ => u4
              end;
            ParticleSimulator.cursor := 0 |}).

(** The source of draws after [n] more calls. *)
Definition advance (r : ParticleSimulator.Rng) (n : nat)
  : ParticleSimulator.Rng :=
  {| ParticleSimulator.draws := ParticleSimulator.draws r;
     ParticleSimulator.cursor := (ParticleSimulator.cursor r + n)%nat |}.

(** A canvas of 800 by 600 pixels. *)
Definition canvas800 : ParticleSimulator.Canvas :=
  {| ParticleSimulator.width := 800; ParticleSimulator.height := 600 |}.

(** A source whose first 250 draws are 0 and whose later draws are 0.5. *)
Definition drawsZeroThenHalf : ParticleSimulator.Rng :=
  {| ParticleSimulator.draws := fun n => if (n <? 250)%nat then 0 else 0.5;
     ParticleSimulator.cursor := 0 |}.

(** A body given by position, velocity, mass and charge. *)
Definition particleAt (x y vx vy m q : number) : ParticleSimulator.Particle :=
  {| ParticleSimulator.x := x; ParticleSimulator.y := y;
     ParticleSimulator.vx := vx; ParticleSimulator.vy := vy;
     ParticleSimulator.radius := 3; ParticleSimulator.mass := m;
     ParticleSimulator.charge := q;
     ParticleSimulator.color := "#a1a1aa"%string |}.

(** [dist] of the source: how far body [q] is from body [p]. *)
Definition separation (p q : ParticleSimulator.Particle) : number :=
  let dx := ParticleSimulator.x q - ParticleSimulator.x p in
  let dy := ParticleSimulator.y q - ParticleSimulator.y p in
  sqrt (dx * dx + dy * dy).

(** The acceleration [a] of body [p] points along the line to body [q],
    toward it or away from it. *)
Definition directed_toward (a : number * number)
    (p q : ParticleSimulator.Particle) : Prop :=
  exists c, 0 < c
    /\ a = (c * (ParticleSimulator.x q - ParticleSimulator.x p),
            c * (ParticleSimulator.y q - ParticleSimulator.y p)).

Definition directed_away (a : number * number)
    (p q : ParticleSimulator.Particle) : Prop :=
  exists c, 0 < c
    /\ a = (- c * (ParticleSimulator.x q - ParticleSimulator.x p),
            - c * (ParticleSimulator.y q - ParticleSimulator.y p)).

(** Frame timestamps that never go back in time, starting from [t0]. *)
Fixpoint nondecreasing_from (t0 : number) (timestamps : list number) : Prop :=
  match timestamps with
  | [] => True
  | t :: rest => t0 <= t /\ nondecreasing_from t rest
  end.

(** Every draw lies in [0, 1), as [Math.random()] promises. *)
Definition unitDraws (r : ParticleSimulator.Rng) : Prop :=
  forall n, 0 <= ParticleSimulator.draws r n < 1.

(** A body lies inside the canvas. *)
Definition insideCanvas (cv : ParticleSimulator.Canvas)
    (p : ParticleSimulator.Particle) : Prop :=
  0 <= ParticleSimulator.x p <= ParticleSimulator.width cv
  /\ 0 <= ParticleSimulator.y p <= ParticleSimulator.height cv.

(** A body as a reset creates it: one of the three charge classes with
    its mass and radius, inside the canvas, each velocity component in
    [-1, 1). *)
Definition freshParticle (cv : ParticleSimulator.Canvas)
    (p : ParticleSimulator.Particle) : Prop :=
  ((ParticleSimulator.charge p = 1 /\ ParticleSimulator.mass p = 2
    /\ ParticleSimulator.radius p = 3)
   \/ (ParticleSimulator.charge p = -1 /\ ParticleSimulator.mass p = 1
       /\ ParticleSimulator.radius p = 2)
   \/ (ParticleSimulator.charge p = 0 /\ ParticleSimulator.mass p = 2.1
       /\ ParticleSimulator.radius p = 3))
  /\ insideCanvas cv p
  /\ -1 <= ParticleSimulator.vx p < 1
  /\ -1 <= ParticleSimulator.vy p < 1.

(** What a tick never changes about a body. *)
Definition identity (p : ParticleSimulator.Particle)
  : number * number * number * string :=
  (ParticleSimulator.radius p, ParticleSimulator.mass p,
   ParticleSimulator.charge p, ParticleSimulator.color p).

(** * Properties *)

(** ** The boolean tests decide the order of the reals *)

Lemma gtb_true a b : gtb a b = true <-> b < a.
Proof. unfold gtb. destruct (Rlt_dec b a); split; intros; try easy. Qed.

Lemma gtb_false a b : gtb a b = false <-> a <= b.
Proof. unfold gtb. destruct (Rlt_dec b a); split; intros; try easy; lra. Qed.

Lemma geb_true a b : geb a b = true <-> b <= a.
Proof. unfold geb. destruct (Rle_dec b a); split; intros; try easy. Qed.

Lemma geb_false a b : geb a b = false <-> a < b.
Proof. unfold geb. destruct (Rle_dec b a); split; intros; try easy; lra. Qed.

Lemma ltb_true a b : ltb a b = true <-> a < b.
Proof. unfold ltb. destruct (Rlt_dec a b); split; intros; try easy. Qed.

Lemma ltb_false a b : ltb a b = false <-> b <= a.
Proof. unfold ltb. destruct (Rlt_dec a b); split; intros; try easy; lra. Qed.

(** Case analysis on one comparison of the source, leaving the order fact
    in the context. *)
Ltac case_gtb a b :=
  let E := fresh "E" in
  destruct (gtb a b) eqn:E;
  [apply gtb_true in E | apply gtb_false in E].
Ltac case_geb a b :=
  let E := fresh "E" in
  destruct (geb a b) eqn:E;
  [apply geb_true in E | apply geb_false in E].
Ltac case_ltb a b :=
  let E := fresh "E" in
  destruct (ltb a b) eqn:E;
  [apply ltb_true in E | apply ltb_false in E].

(** ** The clock: what delta each tick computes *)

Lemma pendulum_deltaTime_some timestamp s :
  0 < SimplePendulum.lastUpdateTime s ->
  SimplePendulum.deltaTime timestamp s
  = Some ((timestamp - SimplePendulum.lastUpdateTime s) / 1000).
Proof.
  intros H. unfold SimplePendulum.deltaTime.
  case_gtb (SimplePendulum.lastUpdateTime s) 0; [reflexivity | lra].
Qed.

Lemma pendulum_deltaTime_none timestamp s :
  SimplePendulum.lastUpdateTime s <= 0 ->
  SimplePendulum.deltaTime timestamp s = None.
Proof.
  intros H. unfold SimplePendulum.deltaTime.
  case_gtb (SimplePendulum.lastUpdateTime s) 0; [lra | reflexivity].
Qed.

Lemma incline_deltaTime_some timestamp s :
  0 < InclinedPlane.lastUpdateTime s ->
  InclinedPlane.deltaTime timestamp s
  = Some ((timestamp - InclinedPlane.lastUpdateTime s) / 1000).
Proof.
  intros H. unfold InclinedPlane.deltaTime.
  case_gtb (InclinedPlane.lastUpdateTime s) 0; [reflexivity | lra].
Qed.

Lemma incline_deltaTime_none timestamp s :
  InclinedPlane.lastUpdateTime s <= 0 ->
  InclinedPlane.deltaTime timestamp s = None.
Proof.
  intros H. unfold InclinedPlane.deltaTime.
  case_gtb (InclinedPlane.lastUpdateTime s) 0; [lra | reflexivity].
Qed.

(** C1 fails: no clamp exists.  A frame arriving one hour after the
    baseline is integrated as one step of 3600 seconds, and no bound at
    all caps the delta. *)
Lemma delta_time_clamped_counterexample :
  SimplePendulum.deltaTime 3601000 (pendulumAt 0.5 0 0 1000) = Some 3600
  /\ SimplePendulum.time
       (SimplePendulum.animate
          {| SimplePendulum.length := 2; SimplePendulum.mass := 1;
             SimplePendulum.initialAngle := 30;
             SimplePendulum.gravity := 9.81 |}
          3601000 (pendulumAt 0.5 0 0 1000)) = 3600
  /\ ~ pendulum_delta_clamped.
Proof.
  assert (D : SimplePendulum.deltaTime 3601000 (pendulumAt 0.5 0 0 1000)
              = Some 3600).
  { rewrite pendulum_deltaTime_some by (simpl; lra).
    simpl. f_equal. lra. }
  split; [exact D|]. split.
  - unfold SimplePendulum.animate. rewrite D. simpl. lra.
  - intros [bound Hb].
    pose (gap := Rmax 0 bound + 1).
    assert (Hgap : 0 < gap /\ bound < gap).
    { unfold gap. pose proof (Rmax_l 0 bound). pose proof (Rmax_r 0 bound).
      lra. }
    specialize (Hb 0 0 0 1 (1 + 1000 * gap) gap).
    destruct Hb as [_ Hb].
    + lra.
    + rewrite pendulum_deltaTime_some by (simpl; lra).
      simpl. f_equal. lra.
    + lra.
Qed.

(** C1, amended: in the pendulum, the incline, MRU and MRUV the delta fed
    to the step is exactly [(timestamp - last) / 1000], and the tick
    applies it whole: the pendulum and the incline are integrated once
    with it, MRU and MRUV add it to the elapsed time (capped at the total
    time).  It is not negative when the timestamps do not decrease, and
    nothing clamps it: for every bound some later frame advances the
    pendulum's clock by more than the bound in that single tick. *)
Theorem delta_time_is_raw_difference (last timestamp : number) :
  0 < last -> last <= timestamp ->
  let d := (timestamp - last) / 1000 in
  0 <= d
  /\ (forall p a w t,
        let s := pendulumAt a w t last in
        let s' := SimplePendulum.animate p timestamp s in
        SimplePendulum.deltaTime timestamp s = Some d
        /\ SimplePendulum.angle s'
           = SimplePendulum.angle (SimplePendulum.integrate p d s)
        /\ SimplePendulum.angularVelocity s'
           = SimplePendulum.angularVelocity (SimplePendulum.integrate p d s)
        /\ SimplePendulum.time s' = t + d
        /\ SimplePendulum.lastUpdateTime s' = timestamp)
  /\ (forall p x v t r,
        let s := {| InclinedPlane.position := x; InclinedPlane.velocity := v;
                    InclinedPlane.time := t;
                    InclinedPlane.lastUpdateTime := last;
                    InclinedPlane.isRunning := r |} in
        let s' := InclinedPlane.animate p timestamp s in
        InclinedPlane.deltaTime timestamp s = Some d
        /\ InclinedPlane.position s'
           = InclinedPlane.position (InclinedPlane.integrate p d s)
        /\ InclinedPlane.velocity s'
           = v + InclinedPlane.acceleration p * d
        /\ InclinedPlane.time s' = t + d
        /\ InclinedPlane.lastUpdateTime s' = timestamp)
  /\ (forall p e r,
        let s := {| MRU.params := p; MRU.lastTimeRef := Some last;
                    MRU.elapsedTime := e; MRU.isRunning := r |} in
        MRU.deltaTime timestamp s = d
        /\ MRU.elapsedTime (MRU.animate timestamp s)
           = Rmin (MRU.totalTime p) (e + d)
        /\ MRU.lastTimeRef (MRU.animate timestamp s) = Some timestamp)
  /\ (forall p e r,
        let s := {| MRUV.params := p; MRUV.lastTimeRef := Some last;
                    MRUV.elapsedTime := e; MRUV.isRunning := r |} in
        MRUV.deltaTime timestamp s = d
        /\ MRUV.elapsedTime (MRUV.animate timestamp s)
           = Rmin (MRUV.totalTime p) (e + d)
        /\ MRUV.lastTimeRef (MRUV.animate timestamp s) = Some timestamp)
  /\ (forall (bound : number) p a w t, exists later : number,
        last <= later
        /\ bound
           < SimplePendulum.time
               (SimplePendulum.animate p later (pendulumAt a w t last))
             - t).
Proof.
  intros Hlast Hle d.
  split; [subst d; lra|].
  split; [|split; [|split; [|split]]].
  - intros p a w t s s'.
    assert (D : SimplePendulum.deltaTime timestamp s = Some d)
      by (apply pendulum_deltaTime_some; simpl; lra).
    split; [exact D|].
    subst s'. unfold SimplePendulum.animate. rewrite D.
    repeat split; reflexivity.
  - intros p x v t r s s'.
    assert (D : InclinedPlane.deltaTime timestamp s = Some d)
      by (apply incline_deltaTime_some; simpl; lra).
    split; [exact D|].
    subst s'. unfold InclinedPlane.animate. rewrite D.
    cbn [InclinedPlane.position InclinedPlane.velocity InclinedPlane.time
         InclinedPlane.lastUpdateTime].
    split; [reflexivity|].
    unfold InclinedPlane.integrate.
    match goal with |- context [geb ?a ?b] => destruct (geb a b) end;
      repeat split; reflexivity.
  - intros p e r s.
    assert (D : MRU.deltaTime timestamp s = d) by reflexivity.
    split; [exact D|].
    unfold MRU.animate. rewrite D. subst s.
    cbn [MRU.params MRU.elapsedTime].
    match goal with |- context [geb ?a ?b] => case_geb a b end; simpl.
    + rewrite Rmin_left by lra. split; reflexivity.
    + rewrite Rmin_right by lra. split; reflexivity.
  - intros p e r s.
    assert (D : MRUV.deltaTime timestamp s = d) by reflexivity.
    split; [exact D|].
    unfold MRUV.animate. rewrite D. subst s.
    cbn [MRUV.params MRUV.elapsedTime].
    match goal with |- context [geb ?a ?b] => case_geb a b end; simpl.
    + rewrite Rmin_left by lra. split; reflexivity.
    + rewrite Rmin_right by lra. split; reflexivity.
  - intros bound p a w t.
    exists (last + 1000 * (Rmax 0 bound + 1)).
    pose proof (Rmax_l 0 bound). pose proof (Rmax_r 0 bound).
    split; [lra|].
    unfold SimplePendulum.animate.
    rewrite pendulum_deltaTime_some by (simpl; lra).
    simpl. lra.
Qed.

Lemma delta_time_is_raw_difference_witness :
  0 <= (1016 - 1000) / 1000
  /\ SimplePendulum.time
       (SimplePendulum.animate pendulumDefaults 1016 (pendulumAt 0.5 0 0 1000))
     = 0 + (1016 - 1000) / 1000.
Proof.
  destruct (delta_time_is_raw_difference 1000 1016) as (H0 & Hp & _);
    [lra | lra |].
  split; [exact H0|].
  apply (Hp pendulumDefaults 0.5 0 0).
Defined.

(** ** Stepping with a zero delta *)

(** The track-length bound is an invariant of the incline: a reset
    establishes it and every tick keeps it. *)
Lemma incline_reset_on_track s :
  InclinedPlane.position (InclinedPlane.resetState s)
  <= InclinedPlane.maxPosition.
Proof. simpl. unfold InclinedPlane.maxPosition. lra. Qed.

Lemma incline_animate_on_track p timestamp s :
  InclinedPlane.position s <= InclinedPlane.maxPosition ->
  InclinedPlane.position (InclinedPlane.animate p timestamp s)
  <= InclinedPlane.maxPosition.
Proof.
  intros H. unfold InclinedPlane.animate.
  destruct (InclinedPlane.deltaTime timestamp s) as [dt|]; simpl; [|exact H].
  unfold InclinedPlane.integrate.
  match goal with |- context [geb ?a ?b] => case_geb a b end; simpl; lra.
Qed.

(** The elapsed time of MRU and MRUV never passes the total time. *)
Lemma mru_animate_within_total timestamp s :
  MRU.elapsedTime (MRU.animate timestamp s) <= MRU.totalTime (MRU.params s).
Proof.
  unfold MRU.animate.
  match goal with |- context [geb ?a ?b] => case_geb a b end; simpl; lra.
Qed.

Lemma mruv_animate_within_total timestamp s :
  MRUV.elapsedTime (MRUV.animate timestamp s)
  <= MRUV.totalTime (MRUV.params s).
Proof.
  unfold MRUV.animate.
  match goal with |- context [geb ?a ?b] => case_geb a b end; simpl; lra.
Qed.

(** C2 fails on the pendulum: the damping multiplier is applied on every
    step, so a tick whose delta is 0 turns the angular velocity 1 into
    0.999. *)
Lemma zero_delta_identity_counterexample :
  SimplePendulum.deltaTime 1000 (pendulumAt 0.1 1 0 1000) = Some 0
  /\ SimplePendulum.angularVelocity
       (SimplePendulum.animate pendulumDefaults 1000
          (pendulumAt 0.1 1 0 1000)) = 0.999
  /\ SimplePendulum.angularVelocity
       (SimplePendulum.animate pendulumDefaults 1000
          (pendulumAt 0.1 1 0 1000))
     <> SimplePendulum.angularVelocity (pendulumAt 0.1 1 0 1000).
Proof.
  assert (D : SimplePendulum.deltaTime 1000 (pendulumAt 0.1 1 0 1000)
              = Some 0).
  { rewrite pendulum_deltaTime_some by (simpl; lra).
    simpl. f_equal. lra. }
  split; [exact D|].
  unfold SimplePendulum.animate. rewrite D. simpl.
  split; [lra | lra].
Qed.

(** C2, amended: a tick whose delta is 0 leaves every position unchanged
    (pendulum angle; incline position, once on the track; MRU and MRUV
    position, once within the total time) and leaves the velocity
    unchanged in the incline, MRU and MRUV; in the pendulum the angular
    velocity is multiplied by the damping factor 0.999. *)
Theorem zero_delta_step :
  (forall p timestamp s,
     SimplePendulum.deltaTime timestamp s = Some 0 ->
     let s' := SimplePendulum.animate p timestamp s in
     SimplePendulum.angle s' = SimplePendulum.angle s
     /\ SimplePendulum.angularVelocity s'
        = 0.999 * SimplePendulum.angularVelocity s)
  /\ (forall p timestamp s,
        InclinedPlane.deltaTime timestamp s = Some 0 ->
        InclinedPlane.position s <= InclinedPlane.maxPosition ->
        let s' := InclinedPlane.animate p timestamp s in
        InclinedPlane.position s' = InclinedPlane.position s
        /\ InclinedPlane.velocity s' = InclinedPlane.velocity s)
  /\ (forall timestamp s,
        MRU.deltaTime timestamp s = 0 ->
        MRU.elapsedTime s <= MRU.totalTime (MRU.params s) ->
        let s' := MRU.animate timestamp s in
        MRU.currentPosition s' = MRU.currentPosition s
        /\ MRU.velocity (MRU.params s') = MRU.velocity (MRU.params s))
  /\ (forall timestamp s,
        MRUV.deltaTime timestamp s = 0 ->
        MRUV.elapsedTime s <= MRUV.totalTime (MRUV.params s) ->
        let s' := MRUV.animate timestamp s in
        MRUV.position s' = MRUV.position s
        /\ MRUV.velocity s' = MRUV.velocity s).
Proof.
  repeat split.
  - unfold SimplePendulum.animate in *. rewrite H. simpl. lra.
  - unfold SimplePendulum.animate in *. rewrite H. simpl. lra.
  - unfold InclinedPlane.animate in *. rewrite H. simpl.
    unfold InclinedPlane.integrate.
    match goal with |- context [geb ?a ?b] => case_geb a b end; simpl; lra.
  - unfold InclinedPlane.animate in *. rewrite H. simpl.
    unfold InclinedPlane.integrate.
    match goal with |- context [geb ?a ?b] => case_geb a b end; simpl; lra.
  - unfold MRU.animate, MRU.currentPosition in *. rewrite H.
    match goal with |- context [geb ?a ?b] => case_geb a b end; simpl;
      [|f_equal; f_equal; lra].
    assert (MRU.elapsedTime s = MRU.totalTime (MRU.params s)) as -> by lra.
    reflexivity.
  - unfold MRU.animate.
    match goal with |- context [geb ?a ?b] => destruct (geb a b) end;
      reflexivity.
  - unfold MRUV.animate, MRUV.position in *. rewrite H.
    match goal with |- context [geb ?a ?b] => case_geb a b end; simpl.
    + assert (MRUV.elapsedTime s = MRUV.totalTime (MRUV.params s)) as ->
        by lra.
      reflexivity.
    + replace (MRUV.elapsedTime s + 0) with (MRUV.elapsedTime s) by lra.
      reflexivity.
  - unfold MRUV.animate, MRUV.velocity in *. rewrite H.
    match goal with |- context [geb ?a ?b] => case_geb a b end; simpl.
    + assert (MRUV.elapsedTime s = MRUV.totalTime (MRUV.params s)) as ->
        by lra.
      reflexivity.
    + replace (MRUV.elapsedTime s + 0) with (MRUV.elapsedTime s) by lra.
      reflexivity.
Qed.

Lemma zero_delta_step_witness :
  SimplePendulum.angle
    (SimplePendulum.animate pendulumDefaults 1000 (pendulumAt 0.1 1 0 1000))
  = 0.1
  /\ InclinedPlane.position
       (InclinedPlane.animate
          {| InclinedPlane.angle := 30; InclinedPlane.mass := 5;
             InclinedPlane.friction := 0.2 |}
          1000
          {| InclinedPlane.position := 3; InclinedPlane.velocity := 2;
             InclinedPlane.time := 1; InclinedPlane.lastUpdateTime := 1000;
             InclinedPlane.isRunning := true |}) = 3.
Proof.
  destruct zero_delta_step as (Hp & Hi & _).
  split.
  - apply (Hp pendulumDefaults 1000 (pendulumAt 0.1 1 0 1000)).
    rewrite pendulum_deltaTime_some by (simpl; lra).
    simpl. f_equal. lra.
  - refine (proj1 (Hi _ 1000 _ _ _)).
    + rewrite incline_deltaTime_some by (simpl; lra).
      simpl. f_equal. lra.
    + simpl. unfold InclinedPlane.maxPosition. lra.
Defined.

(** ** The first tick after a start *)

(** C4 fails on the pendulum: starting does not clear the baseline but
    sets it to the clock reading of that moment, so a first frame stamped
    16 ms later is integrated with a delta of 0.016 s. *)
Lemma first_tick_zero_counterexample :
  let s := SimplePendulum.start 1000
             (SimplePendulum.resetState pendulumDefaults
                (pendulumAt 0 0 0 0)) in
  SimplePendulum.deltaTime 1016 s = Some 0.016
  /\ SimplePendulum.deltaTime 1016 s <> Some 0
  /\ SimplePendulum.time (SimplePendulum.animate pendulumDefaults 1016 s)
     = 0.016.
Proof.
  intros s.
  assert (D : SimplePendulum.deltaTime 1016 s = Some 0.016).
  { unfold s. rewrite pendulum_deltaTime_some by (simpl; lra).
    simpl. f_equal. lra. }
  split; [exact D|]. split.
  - rewrite D. intros E. injection E as E. lra.
  - unfold SimplePendulum.animate. rewrite D. simpl. lra.
Qed.

(** C4, amended: in MRU and MRUV starting clears the baseline, so the
    first tick computes a delta of exactly 0, records its timestamp as
    the baseline and (for a positive total time) leaves the elapsed time
    and the running flag as starting left them.  In the pendulum and the
    incline starting sets the baseline to the clock reading [now]; the
    first tick computes [(timestamp - now) / 1000] and integrates the
    state once with it. *)
Theorem first_tick_after_start :
  (forall timestamp s,
     let s' := MRU.animate timestamp (MRU.start s) in
     MRU.deltaTime timestamp (MRU.start s) = 0
     /\ MRU.lastTimeRef s' = Some timestamp
     /\ (0 < MRU.totalTime (MRU.params s) ->
         MRU.elapsedTime s' = MRU.elapsedTime (MRU.start s)
         /\ MRU.isRunning s' = true))
  /\ (forall timestamp s,
        let s' := MRUV.animate timestamp (MRUV.start s) in
        MRUV.deltaTime timestamp (MRUV.start s) = 0
        /\ MRUV.lastTimeRef s' = Some timestamp
        /\ (0 < MRUV.totalTime (MRUV.params s) ->
            MRUV.elapsedTime s' = MRUV.elapsedTime (MRUV.start s)
            /\ MRUV.isRunning s' = true))
  /\ (forall p now timestamp s,
        0 < now ->
        let d := (timestamp - now) / 1000 in
        let s' := SimplePendulum.animate p timestamp
                    (SimplePendulum.start now s) in
        SimplePendulum.deltaTime timestamp (SimplePendulum.start now s)
        = Some d
        /\ SimplePendulum.angle s'
           = SimplePendulum.angle (SimplePendulum.integrate p d s)
        /\ SimplePendulum.angularVelocity s'
           = SimplePendulum.angularVelocity (SimplePendulum.integrate p d s)
        /\ SimplePendulum.time s' = SimplePendulum.time s + d
        /\ SimplePendulum.lastUpdateTime s' = timestamp)
  /\ (forall p now timestamp s,
        0 < now ->
        let d := (timestamp - now) / 1000 in
        let s' := InclinedPlane.animate p timestamp
                    (InclinedPlane.start now s) in
        InclinedPlane.deltaTime timestamp (InclinedPlane.start now s)
        = Some d
        /\ InclinedPlane.position s'
           = InclinedPlane.position (InclinedPlane.integrate p d s)
        /\ InclinedPlane.velocity s'
           = InclinedPlane.velocity s + InclinedPlane.acceleration p * d
        /\ InclinedPlane.time s' = InclinedPlane.time s + d
        /\ InclinedPlane.lastUpdateTime s' = timestamp).
Proof.
  split; [|split; [|split]].
  - intros timestamp s s'.
    assert (D : MRU.deltaTime timestamp (MRU.start s) = 0)
      by (unfold MRU.deltaTime; simpl; lra).
    split; [exact D|].
    subst s'. unfold MRU.animate. rewrite D.
    cbn [MRU.params MRU.elapsedTime MRU.start].
    split.
    + match goal with |- context [geb ?a ?b] => destruct (geb a b) end;
        reflexivity.
    + intros HT.
      case_geb (MRU.elapsedTime s) (MRU.totalTime (MRU.params s));
        match goal with |- context [geb (?a + 0) ?b] =>
          case_geb (a + 0) b end; simpl; try lra; split; try reflexivity;
        lra.
  - intros timestamp s s'.
    assert (D : MRUV.deltaTime timestamp (MRUV.start s) = 0)
      by (unfold MRUV.deltaTime; simpl; lra).
    split; [exact D|].
    subst s'. unfold MRUV.animate. rewrite D.
    cbn [MRUV.params MRUV.elapsedTime MRUV.start].
    split.
    + match goal with |- context [geb ?a ?b] => destruct (geb a b) end;
        reflexivity.
    + intros HT.
      case_geb (MRUV.elapsedTime s) (MRUV.totalTime (MRUV.params s));
        match goal with |- context [geb (?a + 0) ?b] =>
          case_geb (a + 0) b end; simpl; try lra; split; try reflexivity;
        lra.
  - intros p now timestamp s Hnow d s'.
    assert (D : SimplePendulum.deltaTime timestamp
                  (SimplePendulum.start now s) = Some d)
      by (apply pendulum_deltaTime_some; simpl; lra).
    split; [exact D|].
    subst s'. unfold SimplePendulum.animate. rewrite D.
    repeat split; reflexivity.
  - intros p now timestamp s Hnow d s'.
    assert (D : InclinedPlane.deltaTime timestamp
                  (InclinedPlane.start now s) = Some d)
      by (apply incline_deltaTime_some; simpl; lra).
    split; [exact D|].
    subst s'. unfold InclinedPlane.animate. rewrite D.
    cbn [InclinedPlane.position InclinedPlane.velocity InclinedPlane.time
         InclinedPlane.lastUpdateTime].
    unfold InclinedPlane.integrate.
    cbn [InclinedPlane.position InclinedPlane.velocity InclinedPlane.time
         InclinedPlane.start].
    match goal with |- context [geb ?a ?b] => destruct (geb a b) end;
      repeat split; reflexivity.
Qed.

Lemma first_tick_after_start_witness :
  SimplePendulum.time
    (SimplePendulum.animate pendulumDefaults 1016
       (SimplePendulum.start 1000 (pendulumAt 0.5 0 0 0)))
  = 0 + (1016 - 1000) / 1000.
Proof.
  destruct first_tick_after_start as (_ & _ & Hp & _).
  refine (proj1 (proj2 (proj2 (proj2
            (Hp pendulumDefaults 1000 1016 (pendulumAt 0.5 0 0 0) _))))).
  lra.
Defined.

(** ** The integration scheme of each demo *)

(** C5 fails on MRUV: a tick of one second from rest time 0 moves the
    body to position 6 (the closed form), where semi-implicit Euler from
    position 0 and velocity 5 under acceleration 2 gives 7. *)
Lemma semi_implicit_everywhere_counterexample :
  let s := {| MRUV.params := mruvDefaults; MRUV.lastTimeRef := Some 1000;
              MRUV.elapsedTime := 0; MRUV.isRunning := true |} in
  let s' := MRUV.animate 2000 s in
  MRUV.deltaTime 2000 s = 1
  /\ (MRUV.position s', MRUV.velocity s') = (6, 7)
  /\ Spec.semi_implicit_euler (MRUV.acceleration mruvDefaults) 1
       (MRUV.position s, MRUV.velocity s) = (7, 7)
  /\ (MRUV.position s', MRUV.velocity s')
     <> Spec.semi_implicit_euler (MRUV.acceleration mruvDefaults) 1
          (MRUV.position s, MRUV.velocity s).
Proof.
  intros s s'.
  assert (D : MRUV.deltaTime 2000 s = 1).
  { unfold MRUV.deltaTime, s. simpl. lra. }
  assert (E : MRUV.elapsedTime s' = 1).
  { unfold s', MRUV.animate. rewrite D.
    match goal with |- context [geb ?a ?b] => case_geb a b end; simpl in *;
      lra. }
  assert (P : (MRUV.position s', MRUV.velocity s') = (6, 7)).
  { unfold MRUV.position, MRUV.velocity. rewrite E.
    replace (MRUV.params s') with mruvDefaults.
    - simpl. f_equal; lra.
    - unfold s', MRUV.animate.
      match goal with |- context [geb ?a ?b] => destruct (geb a b) end;
        reflexivity. }
  assert (Q : Spec.semi_implicit_euler (MRUV.acceleration mruvDefaults) 1
                (MRUV.position s, MRUV.velocity s) = (7, 7)).
  { unfold Spec.semi_implicit_euler, MRUV.position, MRUV.velocity. simpl.
    f_equal; lra. }
  split; [exact D|]. split; [exact P|]. split; [exact Q|].
  rewrite P, Q. intros C. injection C as C. lra.
Qed.

(** C5, amended.  Pendulum and incline: with a baseline in place each
    tick updates the velocity from the acceleration first (the pendulum
    then damps it by 0.999), then the position from the updated velocity
    (the incline clamps it at the track length), then accumulates the
    elapsed time.  MRU and MRUV integrate nothing: each tick only
    accumulates the elapsed time, clamped at the total time, and position
    and velocity are closed forms in it. *)
Theorem tick_integration_scheme :
  (forall p timestamp s,
     0 < SimplePendulum.lastUpdateTime s ->
     let dt := (timestamp - SimplePendulum.lastUpdateTime s) / 1000 in
     let alpha := - (SimplePendulum.gravity p / SimplePendulum.length p)
                  * SimplePendulum.angle s in
     let s' := SimplePendulum.animate p timestamp s in
     SimplePendulum.angularVelocity s'
     = 0.999 * (SimplePendulum.angularVelocity s + alpha * dt)
     /\ SimplePendulum.angle s'
        = SimplePendulum.angle s + SimplePendulum.angularVelocity s' * dt
     /\ SimplePendulum.time s' = SimplePendulum.time s + dt)
  /\ (forall p timestamp s,
        0 < InclinedPlane.lastUpdateTime s ->
        let dt := (timestamp - InclinedPlane.lastUpdateTime s) / 1000 in
        let xv := Spec.semi_implicit_euler (InclinedPlane.acceleration p) dt
                    (InclinedPlane.position s, InclinedPlane.velocity s) in
        let s' := InclinedPlane.animate p timestamp s in
        InclinedPlane.velocity s' = snd xv
        /\ InclinedPlane.position s'
           = Rmin (fst xv) InclinedPlane.maxPosition
        /\ InclinedPlane.time s' = InclinedPlane.time s + dt)
  /\ (forall timestamp s,
        let t' := Rmin (MRU.elapsedTime s + MRU.deltaTime timestamp s)
                    (MRU.totalTime (MRU.params s)) in
        let s' := MRU.animate timestamp s in
        MRU.elapsedTime s' = t'
        /\ MRU.currentPosition s'
           = MRU.initialPosition (MRU.params s)
             + MRU.velocity (MRU.params s) * t')
  /\ (forall timestamp s,
        let t' := Rmin (MRUV.elapsedTime s + MRUV.deltaTime timestamp s)
                    (MRUV.totalTime (MRUV.params s)) in
        let s' := MRUV.animate timestamp s in
        let q := MRUV.params s in
        MRUV.elapsedTime s' = t'
        /\ MRUV.position s'
           = MRUV.initialPosition q + MRUV.initialVelocity q * t'
             + 0.5 * MRUV.acceleration q * t' * t'
        /\ MRUV.velocity s'
           = MRUV.initialVelocity q + MRUV.acceleration q * t').
Proof.
  split; [|split; [|split]].
  - intros p timestamp s Hlast dt alpha s'. subst s'.
    unfold SimplePendulum.animate.
    rewrite pendulum_deltaTime_some by exact Hlast.
    subst dt alpha. simpl. repeat split; lra.
  - intros p timestamp s Hlast dt xv s'. subst s'.
    unfold InclinedPlane.animate.
    rewrite incline_deltaTime_some by exact Hlast.
    subst xv. fold dt. unfold Spec.semi_implicit_euler.
    unfold InclinedPlane.integrate. simpl.
    match goal with |- context [geb ?a ?b] => case_geb a b end; simpl.
    + rewrite Rmin_right by lra. repeat split; lra.
    + rewrite Rmin_left by lra. repeat split; lra.
  - intros timestamp s t' s'.
    assert (E : MRU.elapsedTime s' = t' /\ MRU.params s' = MRU.params s).
    { subst s' t'. unfold MRU.animate.
      match goal with |- context [geb ?a ?b] => case_geb a b end; simpl.
      - rewrite Rmin_right by lra. split; reflexivity.
      - rewrite Rmin_left by lra. split; reflexivity. }
    destruct E as [E1 E2]. split; [exact E1|].
    unfold MRU.currentPosition. rewrite E1, E2. reflexivity.
  - intros timestamp s t' s' q.
    assert (E : MRUV.elapsedTime s' = t' /\ MRUV.params s' = q).
    { subst s' t' q. unfold MRUV.animate.
      match goal with |- context [geb ?a ?b] => case_geb a b end; simpl.
      - rewrite Rmin_right by lra. split; reflexivity.
      - rewrite Rmin_left by lra. split; reflexivity. }
    destruct E as [E1 E2]. split; [exact E1|].
    unfold MRUV.position, MRUV.velocity. rewrite E1, E2.
    split; reflexivity.
Qed.

Lemma tick_integration_scheme_witness :
  SimplePendulum.time
    (SimplePendulum.animate pendulumDefaults 1016 (pendulumAt 0.5 0 0 1000))
  = 0 + (1016 - 1000) / 1000.
Proof.
  destruct tick_integration_scheme as (Hp & _).
  refine (proj2 (proj2 (Hp pendulumDefaults 1016
                          (pendulumAt 0.5 0 0 1000) _))).
  simpl. lra.
Defined.

(** ** The incline's force model *)

(** The net force of the source is [m g (sin - mu cos)]. *)
Lemma incline_acceleration_cases (p : InclinedPlane.Params) :
  let theta := (InclinedPlane.angle p * PI) / 180 in
  let net := InclinedPlane.mass p * InclinedPlane.GRAVITY * sin theta
             - InclinedPlane.friction p
               * (InclinedPlane.mass p * InclinedPlane.GRAVITY * cos theta) in
  InclinedPlane.acceleration p
  = if gtb net 0 then net / InclinedPlane.mass p else 0.
Proof. reflexivity. Qed.




(** ** The projectile's closed forms *)

(** The time of flight is the positive root of [y(t) = 0], as long as the
    discriminant has a square root. *)
Lemma projectile_lands_at_timeOfFlight (p : ProjectileMotion.Params) :
  0 <= ProjectileMotion.v0y p ^ 2
       + 2 * ProjectileMotion.GRAVITY * ProjectileMotion.height p ->
  ProjectileMotion.heightAt p (ProjectileMotion.timeOfFlight p) = 0.
Proof.
  intros Hd. unfold ProjectileMotion.heightAt, ProjectileMotion.timeOfFlight.
  set (D := ProjectileMotion.v0y p ^ 2
            + 2 * ProjectileMotion.GRAVITY * ProjectileMotion.height p) in *.
  assert (Hs : sqrt D * sqrt D = D) by (apply sqrt_sqrt; exact Hd).
  set (s := sqrt D) in *.
  assert (Hh : ProjectileMotion.height p
               = (s * s - ProjectileMotion.v0y p ^ 2)
                 / (2 * ProjectileMotion.GRAVITY)).
  { rewrite Hs. unfold D, ProjectileMotion.GRAVITY, InclinedPlane.GRAVITY.
    field; lra. }
  rewrite Hh. clearbody s. clear Hh Hs Hd. clearbody D.
  unfold ProjectileMotion.GRAVITY, InclinedPlane.GRAVITY.
  replace 0.5 with (1 / 2) by lra. replace 9.81 with (981 / 100) by lra.
  field.
Qed.

(** C10: launched from height 0 (speed not negative, angle between 0 and
    180 degrees) the computed range is [v^2 sin(2 theta) / g]; and for
    every parameter combination the last sample of the trajectory has
    height exactly 0 and carries the time of flight, which solves
    [y(t) = 0] whenever the discriminant is not negative. *)
Theorem projectile_range_and_last_sample (p : ProjectileMotion.Params) :
  (ProjectileMotion.height p = 0 ->
   0 <= ProjectileMotion.velocity p ->
   0 <= ProjectileMotion.angle p <= 180 ->
   ProjectileMotion.range p
   = ProjectileMotion.velocity p ^ 2
     * sin (2 * ProjectileMotion.angleRad p) / ProjectileMotion.GRAVITY)
  /\ (exists s,
        last (ProjectileMotion.trajectoryData p) = Some s
        /\ ProjectileMotion.y s = 0
        /\ ProjectileMotion.time s = ProjectileMotion.timeOfFlight p
        /\ ProjectileMotion.x s
           = ProjectileMotion.v0x p * ProjectileMotion.timeOfFlight p)
  /\ (0 <= ProjectileMotion.v0y p ^ 2
           + 2 * ProjectileMotion.GRAVITY * ProjectileMotion.height p ->
      ProjectileMotion.heightAt p (ProjectileMotion.timeOfFlight p) = 0).
Proof.
  split; [|split].
  - intros Hh Hv [Ha0 Ha1].
    assert (Hsin : 0 <= sin (ProjectileMotion.angleRad p)).
    { unfold ProjectileMotion.angleRad. pose proof PI_RGT_0.
      apply sin_ge_0; [|].
      - apply Rmult_le_pos; [|lra]. apply Rmult_le_pos; lra.
      - apply Rmult_le_reg_r with 180; [lra|].
        replace (ProjectileMotion.angle p * PI / 180 * 180)
          with (ProjectileMotion.angle p * PI) by field.
        rewrite (Rmult_comm PI 180). apply Rmult_le_compat_r; lra. }
    assert (Hy : 0 <= ProjectileMotion.v0y p).
    { unfold ProjectileMotion.v0y. apply Rmult_le_pos; assumption. }
    unfold ProjectileMotion.range, ProjectileMotion.timeOfFlight.
    rewrite Hh.
    replace (ProjectileMotion.v0y p ^ 2 + 2 * ProjectileMotion.GRAVITY * 0)
      with (ProjectileMotion.v0y p ^ 2) by ring.
    rewrite sqrt_pow2 by exact Hy.
    rewrite sin_2a. unfold ProjectileMotion.v0y.
    unfold ProjectileMotion.GRAVITY, InclinedPlane.GRAVITY. field; lra.
  - eexists. split.
    + unfold ProjectileMotion.trajectoryData. apply last_snoc.
    + simpl. repeat split; reflexivity.
  - apply projectile_lands_at_timeOfFlight.
Qed.

Lemma projectile_range_and_last_sample_witness :
  ProjectileMotion.range projectileDefaults
  = 50 ^ 2 * sin (2 * ProjectileMotion.angleRad projectileDefaults)
    / ProjectileMotion.GRAVITY
  /\ ProjectileMotion.heightAt projectileDefaults
       (ProjectileMotion.timeOfFlight projectileDefaults) = 0.
Proof.
  split.
  - refine (proj1 (projectile_range_and_last_sample projectileDefaults)
              _ _ _); simpl; [reflexivity | lra | lra].
  - refine (proj2 (proj2 (projectile_range_and_last_sample
                            projectileDefaults)) _).
    simpl. pose proof (pow2_ge_0 (ProjectileMotion.v0y projectileDefaults)).
    simpl in *. lra.
Defined.

(** ** Reset *)

Lemma newParticle_draws cv r :
  ParticleSimulator.newParticle cv r
  = (particleOf cv
       (ParticleSimulator.draws r (ParticleSimulator.cursor r + 0)%nat)
       (ParticleSimulator.draws r (ParticleSimulator.cursor r + 1)%nat)
       (ParticleSimulator.draws r (ParticleSimulator.cursor r + 2)%nat)
       (ParticleSimulator.draws r (ParticleSimulator.cursor r + 3)%nat)
       (ParticleSimulator.draws r (ParticleSimulator.cursor r + 4)%nat),
     advance r 5).
Proof.
  destruct r as [d c]. unfold particleOf, advance,
    ParticleSimulator.newParticle, ParticleSimulator.random. simpl.
  replace (c + 0)%nat with c by lia.
  replace (c + 1)%nat with (S c) by lia.
  replace (c + 2)%nat with (S (S c)) by lia.
  replace (c + 3)%nat with (S (S (S c))) by lia.
  replace (c + 4)%nat with (S (S (S (S c)))) by lia.
  replace (c + 5)%nat with (S (S (S (S (S c))))) by lia.
  destruct (ParticleSimulator.eqb _ 1);
    [|destruct (ParticleSimulator.eqb _ (-1))]; reflexivity.
Qed.

Lemma particleOf_x cv u0 u1 u2 u3 u4 :
  ParticleSimulator.x (particleOf cv u0 u1 u2 u3 u4)
  = u1 * ParticleSimulator.width cv.
Proof.
  unfold particleOf, ParticleSimulator.newParticle, ParticleSimulator.random.
  simpl.
  destruct (ParticleSimulator.eqb _ 1);
    [|destruct (ParticleSimulator.eqb _ (-1))]; reflexivity.
Qed.

(** The loop appends to what it was given and consumes five draws per
    turn. *)
Lemma resetLoop_unfold n cv r acc :
  ParticleSimulator.resetLoop n cv r acc
  = (acc ++ fst (ParticleSimulator.resetLoop n cv r []), advance r (5 * n)).
Proof.
  revert r acc. induction n as [|n IH]; intros r acc.
  - simpl. rewrite app_nil_r. unfold advance.
    destruct r as [d c]. simpl. do 2 f_equal. lia.
  - simpl. rewrite newParticle_draws.
    rewrite (IH (advance r 5) (acc ++ _)).
    rewrite (IH (advance r 5) [_]). simpl.
    rewrite <- app_assoc. f_equal.
    unfold advance. simpl. f_equal. lia.
Qed.

(** Two runs of the loop whose draws agree build the same population. *)
Lemma resetLoop_same_draws n cv r r' :
  (forall i, (i < 5 * n)%nat ->
     ParticleSimulator.draws r (ParticleSimulator.cursor r + i)%nat
     = ParticleSimulator.draws r' (ParticleSimulator.cursor r' + i)%nat) ->
  fst (ParticleSimulator.resetLoop n cv r [])
  = fst (ParticleSimulator.resetLoop n cv r' []).
Proof.
  revert r r'. induction n as [|n IH]; intros r r' H; [reflexivity|].
  simpl. rewrite !newParticle_draws.
  rewrite (resetLoop_unfold n cv (advance r 5)).
  rewrite (resetLoop_unfold n cv (advance r' 5)). simpl.
  rewrite !H by lia. f_equal.
  apply IH. intros i Hi. unfold advance. simpl.
  replace (ParticleSimulator.cursor r + 5 + i)%nat
    with (ParticleSimulator.cursor r + (5 + i))%nat by lia.
  replace (ParticleSimulator.cursor r' + 5 + i)%nat
    with (ParticleSimulator.cursor r' + (5 + i))%nat by lia.
  apply H. lia.
Qed.

Lemma resetLoop_head n cv r :
  fst (ParticleSimulator.resetLoop (S n) cv r []) !! 0%nat
  = Some (fst (ParticleSimulator.newParticle cv r)).
Proof.
  simpl. rewrite newParticle_draws. rewrite resetLoop_unfold. reflexivity.
Qed.

(** A reset with the canvas in place, in one equation. *)
Lemma resetSimulation_canvas s cv r :
  ParticleSimulator.canvasRef s = Some cv ->
  ParticleSimulator.resetSimulation s r
  = ({| ParticleSimulator.particles :=
          fst (ParticleSimulator.resetLoop 50 cv r []);
        ParticleSimulator.isRunning := false;
        ParticleSimulator.canvasRef := Some cv |}, advance r (5 * 50)).
Proof.
  intros H. unfold ParticleSimulator.resetSimulation. rewrite H.
  rewrite resetLoop_unfold. cbv beta iota. rewrite app_nil_l. reflexivity.
Qed.

(** C3 fails on the particle simulator: a reset draws its population from
    [Math.random()].  With 250 draws of 0 followed by draws of 0.5 the
    first reset puts body 0 at x = 0 and the second puts it at x = 400. *)
Lemma reset_twice_identical_counterexample :
  let s0 := {| ParticleSimulator.particles := [];
               ParticleSimulator.isRunning := false;
               ParticleSimulator.canvasRef := Some canvas800 |} in
  let '(s1, r1) := ParticleSimulator.resetSimulation s0 drawsZeroThenHalf in
  let '(s2, r2) := ParticleSimulator.resetSimulation s1 r1 in
  (exists p1 p2,
     ParticleSimulator.particles s1 !! 0%nat = Some p1
     /\ ParticleSimulator.particles s2 !! 0%nat = Some p2
     /\ ParticleSimulator.x p1 = 0 /\ ParticleSimulator.x p2 = 400)
  /\ s2 <> s1.
Proof.
  intros s0.
  rewrite (resetSimulation_canvas s0 canvas800) by reflexivity.
  rewrite (resetSimulation_canvas _ canvas800) by reflexivity.
  cbv beta iota. cbn [ParticleSimulator.particles].
  assert (H1 : ParticleSimulator.x
                 (fst (ParticleSimulator.newParticle canvas800
                         drawsZeroThenHalf)) = 0).
  { rewrite newParticle_draws. simpl. rewrite particleOf_x. simpl. lra. }
  assert (H2 : ParticleSimulator.x
                 (fst (ParticleSimulator.newParticle canvas800
                         (advance drawsZeroThenHalf (5 * 50)))) = 400).
  { rewrite newParticle_draws. simpl. rewrite particleOf_x. simpl. lra. }
  assert (E : forall A B, (A -> B) -> A -> A /\ B) by tauto.
  apply E; clear E.
  - intros (p1 & p2 & L1 & L2 & X1 & X2) C.
    apply (f_equal ParticleSimulator.particles) in C.
    cbn [ParticleSimulator.particles] in C.
    rewrite C, L1 in L2. injection L2 as L2. subst p2. lra.
  - eexists _, _. split; [apply resetLoop_head|].
    split; [apply resetLoop_head|]. split; assumption.
Qed.

Lemma advance_zero r : advance r 0 = r.
Proof. destruct r as [d c]. unfold advance. simpl. f_equal. lia. Qed.

Lemma advance_advance r n m : advance (advance r n) m = advance r (n + m).
Proof. unfold advance. simpl. f_equal. lia. Qed.

(** Body [i] of a fresh population is built from the five draws that
    follow the first [5 i]. *)
Lemma resetLoop_lookup n cv r i :
  (i < n)%nat ->
  fst (ParticleSimulator.resetLoop n cv r []) !! i
  = Some (fst (ParticleSimulator.newParticle cv (advance r (5 * i)))).
Proof.
  revert r i. induction n as [|n IH]; intros r i Hi; [lia|].
  simpl ParticleSimulator.resetLoop.
  rewrite newParticle_draws, resetLoop_unfold. cbn [fst].
  destruct i as [|i].
  - change (5 * 0)%nat with 0%nat. rewrite advance_zero.
    rewrite newParticle_draws. reflexivity.
  - change (([] ++ [?p]) ++ ?l) with (p :: l).
    cbn [app]. rewrite lookup_cons. rewrite IH by lia.
    rewrite advance_advance.
    replace (5 * S i)%nat with (5 + 5 * i)%nat by lia. reflexivity.
Qed.

Lemma newParticle_x cv r :
  ParticleSimulator.x (fst (ParticleSimulator.newParticle cv r))
  = ParticleSimulator.draws r (ParticleSimulator.cursor r + 1)%nat
    * ParticleSimulator.width cv.
Proof. rewrite newParticle_draws. cbn [fst]. apply particleOf_x. Qed.

(** On a canvas of width other than 0, two successive resets whose draws
    for some body's x coordinate differ leave different states. *)
Lemma reset_changes_with_x_draw s r cv i :
  ParticleSimulator.canvasRef s = Some cv ->
  ParticleSimulator.width cv <> 0 ->
  (i < 50)%nat ->
  ParticleSimulator.draws r
    (ParticleSimulator.cursor r + 250 + (5 * i + 1))%nat
  <> ParticleSimulator.draws r
       (ParticleSimulator.cursor r + (5 * i + 1))%nat ->
  let first := ParticleSimulator.resetSimulation s r in
  fst (ParticleSimulator.resetSimulation (fst first) (snd first))
  <> fst first.
Proof.
  intros Hcv Hw Hi Hne first. subst first.
  rewrite (resetSimulation_canvas s cv r Hcv). cbn [fst snd].
  rewrite (resetSimulation_canvas _ cv) by reflexivity. cbn [fst].
  intros E. apply (f_equal ParticleSimulator.particles) in E.
  cbn [ParticleSimulator.particles] in E.
  apply (f_equal (fun l => l !! i)) in E.
  rewrite !resetLoop_lookup in E by exact Hi.
  injection E as E. apply (f_equal ParticleSimulator.x) in E.
  rewrite !newParticle_x in E.
  unfold advance in E.
  cbn [ParticleSimulator.draws ParticleSimulator.cursor] in E.
  apply Rmult_eq_reg_r in E; [|exact Hw].
  apply Hne.
  match type of E with
  | ParticleSimulator.draws r ?a = ParticleSimulator.draws r ?b =>
      replace (ParticleSimulator.cursor r + 250 + (5 * i + 1))%nat
        with a by lia;
      replace (ParticleSimulator.cursor r + (5 * i + 1))%nat
        with b by lia
  end.
  exact E.
Qed.

(** C3, amended: in the pendulum, the incline, MRU and MRUV a second
    reset yields exactly the state of the first.  In the particle
    simulator a reset builds its population from 250 fresh random draws:
    the second reset yields the state of the first when the canvas is
    missing (nothing is drawn) or when its 250 draws repeat those of the
    first; it need not do so otherwise: there are a canvas and draws in
    [0, 1) for which the second reset leaves a different state. *)
Theorem reset_twice_same_state :
  (forall p s,
     SimplePendulum.resetState p (SimplePendulum.resetState p s)
     = SimplePendulum.resetState p s)
  /\ (forall s,
        InclinedPlane.resetState (InclinedPlane.resetState s)
        = InclinedPlane.resetState s)
  /\ (forall s, MRU.handleReset (MRU.handleReset s) = MRU.handleReset s)
  /\ (forall s, MRUV.handleReset (MRUV.handleReset s) = MRUV.handleReset s)
  /\ (forall s r,
        ParticleSimulator.canvasRef s = None
        \/ (forall i, (i < 250)%nat ->
              ParticleSimulator.draws r
                (ParticleSimulator.cursor r + 250 + i)%nat
              = ParticleSimulator.draws r
                  (ParticleSimulator.cursor r + i)%nat) ->
        let first := ParticleSimulator.resetSimulation s r in
        fst (ParticleSimulator.resetSimulation (fst first) (snd first))
        = fst first)
  /\ (exists s r,
        ParticleSimulator.canvasRef s = Some canvas800
        /\ unitDraws r
        /\ let first := ParticleSimulator.resetSimulation s r in
           fst (ParticleSimulator.resetSimulation (fst first) (snd first))
           <> fst first).
Proof.
  repeat split.
  - intros s r H first.
    destruct (ParticleSimulator.canvasRef s) as [cv|] eqn:Hcv.
    + destruct H as [H|H]; [discriminate|].
      subst first. rewrite (resetSimulation_canvas s cv r Hcv).
      cbn [fst snd].
      rewrite (resetSimulation_canvas _ cv) by reflexivity.
      cbn [fst]. f_equal.
      apply resetLoop_same_draws. intros i Hi.
      unfold advance. cbn [ParticleSimulator.draws ParticleSimulator.cursor].
      change (5 * 50)%nat with 250%nat in *. apply H. exact Hi.
    + subst first. unfold ParticleSimulator.resetSimulation at 2 3.
      rewrite Hcv. cbn [fst snd].
      unfold ParticleSimulator.resetSimulation.
      cbn [ParticleSimulator.canvasRef]. rewrite Hcv. reflexivity.
  - exists {| ParticleSimulator.particles := [];
              ParticleSimulator.isRunning := false;
              ParticleSimulator.canvasRef := Some canvas800 |},
           drawsZeroThenHalf.
    split; [reflexivity|]. split.
    + intros n. simpl. destruct (n <? 250)%nat; lra.
    + apply (reset_changes_with_x_draw _ _ canvas800 0%nat);
        [reflexivity | simpl; lra | lia | simpl; lra].
Qed.

Lemma reset_twice_same_state_witness :
  let s0 := {| ParticleSimulator.particles := [];
               ParticleSimulator.isRunning := true;
               ParticleSimulator.canvasRef := Some canvas800 |} in
  let r0 := {| ParticleSimulator.draws := fun _ => 0.25;
               ParticleSimulator.cursor := 0 |} in
  let first := ParticleSimulator.resetSimulation s0 r0 in
  fst (ParticleSimulator.resetSimulation (fst first) (snd first)) = fst first.
Proof.
  intros s0 r0.
  refine (proj1 (proj2 (proj2 (proj2 (proj2 reset_twice_same_state))))
            s0 r0 _).
  right. intros i Hi. reflexivity.
Defined.

(** ** The particle engine: the shape of one tick *)

Section Tick.

Variable cv : ParticleSimulator.Canvas.
Variables gravity electrostatics : number.

Let update := ParticleSimulator.updateParticle cv gravity electrostatics.
Let turns := ParticleSimulator.turns cv gravity electrostatics.

Lemma turns_S m ps : turns (S m) ps = update (turns m ps) m.
Proof.
  unfold turns, ParticleSimulator.turns.
  rewrite seq_S, foldl_app. reflexivity.
Qed.

Lemma update_length ps i : List.length (update ps i) = List.length ps.
Proof.
  unfold update, ParticleSimulator.updateParticle.
  destruct (ps !! i); [apply length_insert | reflexivity].
Qed.

Lemma turns_length m ps : List.length (turns m ps) = List.length ps.
Proof.
  induction m as [|m IH]; [reflexivity|].
  rewrite turns_S, update_length. exact IH.
Qed.

(** A turn rewrites its own body and no other. *)
Lemma update_lookup_ne ps i j : i <> j -> update ps i !! j = ps !! j.
Proof.
  intros H. unfold update, ParticleSimulator.updateParticle.
  destruct (ps !! i); [apply list_lookup_insert_ne; exact H | reflexivity].
Qed.

Lemma update_lookup_eq ps i p :
  ps !! i = Some p ->
  update ps i !! i
  = Some (ParticleSimulator.wallCollisions cv
            (ParticleSimulator.integrate
               (ParticleSimulator.acceleration gravity electrostatics ps i p)
               p)).
Proof.
  intros H. unfold update, ParticleSimulator.updateParticle. rewrite H.
  apply list_lookup_insert_eq. eapply lookup_lt_Some. exact H.
Qed.

(** Bodies whose turn has not come are still as the tick found them. *)
Lemma turns_lookup_pending m ps j :
  (m <= j)%nat -> turns m ps !! j = ps !! j.
Proof.
  induction m as [|m IH]; intros H; [reflexivity|].
  rewrite turns_S, update_lookup_ne by lia. apply IH. lia.
Qed.

(** Bodies whose turn has passed are not touched again. *)
Lemma turns_lookup_done m ps i :
  (i < m)%nat -> turns m ps !! i = turns (S i) ps !! i.
Proof.
  induction m as [|m IH]; intros H; [lia|].
  destruct (Nat.eq_dec i m) as [->|Hne]; [reflexivity|].
  rewrite turns_S, update_lookup_ne by lia. apply IH. lia.
Qed.

(** Body [i] after the tick is the outcome of its own turn, computed on
    the array as the turns before it left it. *)
Lemma gameLoop_lookup ps i p' :
  ParticleSimulator.gameLoop (Some cv) gravity electrostatics ps !! i
  = Some p' ->
  exists p,
    ps !! i = Some p
    /\ p' = ParticleSimulator.wallCollisions cv
              (ParticleSimulator.integrate
                 (ParticleSimulator.acceleration gravity electrostatics
                    (turns i ps) i p) p).
Proof.
  unfold ParticleSimulator.gameLoop. fold (turns (List.length ps) ps).
  intros H.
  assert (Hi : (i < List.length ps)%nat).
  { rewrite <- (turns_length (List.length ps) ps).
    eapply lookup_lt_Some. exact H. }
  destruct (lookup_lt_is_Some_2 ps i Hi) as [p Hp].
  exists p. split; [exact Hp|].
  rewrite turns_lookup_done in H by exact Hi.
  rewrite turns_S in H.
  rewrite (update_lookup_eq _ _ p) in H.
  - injection H as H. symmetry. exact H.
  - rewrite turns_lookup_pending by lia. exact Hp.
Qed.

End Tick.

(** The wall collisions leave a body inside the canvas. *)
Lemma wallCollisions_inside cv p :
  0 <= ParticleSimulator.width cv -> 0 <= ParticleSimulator.height cv ->
  let p' := ParticleSimulator.wallCollisions cv p in
  0 <= ParticleSimulator.x p' <= ParticleSimulator.width cv
  /\ 0 <= ParticleSimulator.y p' <= ParticleSimulator.height cv.
Proof.
  intros Hw Hh. simpl.
  repeat split;
    try apply Rmax_l;
    apply Rmax_lub; try assumption; apply Rmin_l.
Qed.

(** A body that left the canvas on an axis has that velocity component
    reversed and scaled by 0.8. *)
Lemma wallCollisions_bounce_x cv p :
  ParticleSimulator.x p < 0
  \/ ParticleSimulator.width cv < ParticleSimulator.x p ->
  ParticleSimulator.vx (ParticleSimulator.wallCollisions cv p)
  = - 0.8 * ParticleSimulator.vx p.
Proof.
  intros H. simpl.
  case_ltb (ParticleSimulator.x p) 0; simpl; [lra|].
  case_gtb (ParticleSimulator.x p) (ParticleSimulator.width cv);
    simpl; lra.
Qed.

Lemma wallCollisions_bounce_y cv p :
  ParticleSimulator.y p < 0
  \/ ParticleSimulator.height cv < ParticleSimulator.y p ->
  ParticleSimulator.vy (ParticleSimulator.wallCollisions cv p)
  = - 0.8 * ParticleSimulator.vy p.
Proof.
  intros H. simpl.
  case_ltb (ParticleSimulator.y p) 0; simpl; [lra|].
  case_gtb (ParticleSimulator.y p) (ParticleSimulator.height cv);
    simpl; lra.
Qed.

Lemma Rabs_scale_08 v : Rabs (- 0.8 * v) = 0.8 * Rabs v.
Proof.
  rewrite Rabs_mult. f_equal. rewrite Rabs_left by lra. lra.
Qed.

(** C8: after a tick every body is the wall-collision outcome of its
    integrated state [q]; if [q] left [0, width] (or [0, height]) the
    matching velocity component is that of [q] reversed and scaled by the
    restitution factor 0.8, and the body's position lies in
    [0, width] x [0, height]. *)
Theorem tick_wall_collisions cv gravity electrostatics ps i p' :
  0 <= ParticleSimulator.width cv -> 0 <= ParticleSimulator.height cv ->
  ParticleSimulator.gameLoop (Some cv) gravity electrostatics ps !! i
  = Some p' ->
  exists p q,
    ps !! i = Some p
    /\ q = ParticleSimulator.integrate
             (ParticleSimulator.acceleration gravity electrostatics
                (ParticleSimulator.turns cv gravity electrostatics i ps) i p)
             p
    /\ (ParticleSimulator.x q < 0
        \/ ParticleSimulator.width cv < ParticleSimulator.x q ->
        ParticleSimulator.vx p' = - 0.8 * ParticleSimulator.vx q
        /\ Rabs (ParticleSimulator.vx p')
           = 0.8 * Rabs (ParticleSimulator.vx q))
    /\ (ParticleSimulator.y q < 0
        \/ ParticleSimulator.height cv < ParticleSimulator.y q ->
        ParticleSimulator.vy p' = - 0.8 * ParticleSimulator.vy q
        /\ Rabs (ParticleSimulator.vy p')
           = 0.8 * Rabs (ParticleSimulator.vy q))
    /\ 0 <= ParticleSimulator.x p' <= ParticleSimulator.width cv
    /\ 0 <= ParticleSimulator.y p' <= ParticleSimulator.height cv.
Proof.
  intros Hw Hh H.
  destruct (gameLoop_lookup cv gravity electrostatics ps i p' H)
    as (p & Hp & ->).
  exists p. eexists. split; [exact Hp|]. split; [reflexivity|].
  split; [|split].
  - intros Hx. rewrite wallCollisions_bounce_x by exact Hx.
    split; [reflexivity | apply Rabs_scale_08].
  - intros Hy. rewrite wallCollisions_bounce_y by exact Hy.
    split; [reflexivity | apply Rabs_scale_08].
  - apply wallCollisions_inside; assumption.
Qed.

(** A lone neutral body flying out through the right wall. *)
Lemma tick_wall_collisions_witness :
  exists p',
    ParticleSimulator.gameLoop (Some canvas800) 0.1 1
      [particleAt 799 300 5 0 2.1 0] !! 0%nat = Some p'
    /\ ParticleSimulator.vx p' = - 0.8 * 5
    /\ ParticleSimulator.x p' = 800.
Proof.
  pose (p0 := particleAt 799 300 5 0 2.1 0).
  assert (L : ParticleSimulator.gameLoop (Some canvas800) 0.1 1 [p0]
              !! 0%nat
              = Some (ParticleSimulator.wallCollisions canvas800
                        (ParticleSimulator.integrate (0 / 2.1, 0 / 2.1) p0)))
    by reflexivity.
  eexists. split; [exact L|].
  destruct (tick_wall_collisions canvas800 0.1 1 [p0] 0 _
              ltac:(simpl; lra) ltac:(simpl; lra) L)
    as (p & q & Hp & Hq & Hx & _ & _).
  injection Hp as <-.
  assert (Hq' : q = ParticleSimulator.integrate (0 / 2.1, 0 / 2.1) p0)
    by (rewrite Hq; reflexivity).
  assert (Xq : ParticleSimulator.x q = 799 + (5 + 0 / 2.1))
    by (rewrite Hq'; reflexivity).
  assert (Vq : ParticleSimulator.vx q = 5 + 0 / 2.1)
    by (rewrite Hq'; reflexivity).
  split.
  - destruct Hx as [Hx _]; [right; rewrite Xq; simpl; lra|].
    rewrite Hx, Vq. lra.
  - simpl. rewrite Rmin_left by lra. rewrite Rmax_right by lra. reflexivity.
Defined.

(** ** The particle engine: no clock *)

(** What a whole tick leaves at index [i]: nothing where the array had
    nothing, and otherwise the wall-collision outcome of the integrated
    body, with the acceleration computed on the array as the turns before
    [i] left it. *)
Lemma gameLoop_lookup_eq cv gravity electrostatics ps i :
  ParticleSimulator.gameLoop (Some cv) gravity electrostatics ps !! i
  = (fun p =>
       ParticleSimulator.wallCollisions cv
         (ParticleSimulator.integrate
            (ParticleSimulator.acceleration gravity electrostatics
               (ParticleSimulator.turns cv gravity electrostatics i ps) i p)
            p)) <$> ps !! i.
Proof.
  destruct (ps !! i) as [p|] eqn:Hp; cbn [fmap option_fmap option_map].
  - assert (Hi : (i < List.length
                        (ParticleSimulator.gameLoop (Some cv) gravity
                           electrostatics ps))%nat).
    { unfold ParticleSimulator.gameLoop. rewrite turns_length.
      eapply lookup_lt_Some. exact Hp. }
    destruct (lookup_lt_is_Some_2 _ _ Hi) as [p' Hp'].
    rewrite Hp'.
    destruct (gameLoop_lookup cv gravity electrostatics ps i p' Hp')
      as (p0 & Hp0 & ->).
    rewrite Hp in Hp0. injection Hp0 as <-. reflexivity.
  - apply lookup_ge_None_2.
    unfold ParticleSimulator.gameLoop. rewrite turns_length.
    apply lookup_ge_None_1. exact Hp.
Qed.

(** C6: a tick is a function of the particle array and the two
    coefficients (and the canvas it bounces off) and takes no timestamp.
    Body [i] after [gameLoop] is the wall-collision outcome of the body
    integrated with its acceleration on the array: the whole acceleration
    is added to the velocity and the whole updated velocity to the
    position, the semi-implicit Euler step for a delta of one frame.
    The state after any frames is [gameLoop] applied once per frame,
    whatever timestamps the frames carry, so equal numbers of frames from
    the same particles give the same successor states. *)
Theorem tick_ignores_the_clock :
  (forall cv gravity electrostatics ps i,
     ParticleSimulator.gameLoop (Some cv) gravity electrostatics ps !! i
     = (fun p =>
          ParticleSimulator.wallCollisions cv
            (ParticleSimulator.integrate
               (ParticleSimulator.acceleration gravity electrostatics
                  (ParticleSimulator.turns cv gravity electrostatics i ps)
                  i p) p)) <$> ps !! i)
  /\ (forall cv gravity electrostatics ps i p p',
        ps !! i = Some p ->
        ParticleSimulator.gameLoop (Some cv) gravity electrostatics ps !! i
        = Some p' ->
        let a := ParticleSimulator.acceleration gravity electrostatics
                   (ParticleSimulator.turns cv gravity electrostatics i ps)
                   i p in
        let q := ParticleSimulator.integrate a p in
        p' = ParticleSimulator.wallCollisions cv q
        /\ ParticleSimulator.vx q = ParticleSimulator.vx p + fst a
        /\ ParticleSimulator.vy q = ParticleSimulator.vy p + snd a
        /\ ParticleSimulator.x q
           = ParticleSimulator.x p + ParticleSimulator.vx q
        /\ ParticleSimulator.y q
           = ParticleSimulator.y p + ParticleSimulator.vy q
        /\ (ParticleSimulator.x q, ParticleSimulator.vx q)
           = Spec.semi_implicit_euler (fst a) 1
               (ParticleSimulator.x p, ParticleSimulator.vx p)
        /\ (ParticleSimulator.y q, ParticleSimulator.vy q)
           = Spec.semi_implicit_euler (snd a) 1
               (ParticleSimulator.y p, ParticleSimulator.vy p)
        /\ (0 <= ParticleSimulator.x q <= ParticleSimulator.width cv ->
            ParticleSimulator.vx p' = ParticleSimulator.vx p + fst a
            /\ ParticleSimulator.x p'
               = ParticleSimulator.x p + ParticleSimulator.vx p'))
  /\ (forall canvas gravity electrostatics ps timestamps,
        ParticleSimulator.runFrames canvas gravity electrostatics
          timestamps ps
        = Nat.iter (List.length timestamps)
            (ParticleSimulator.gameLoop canvas gravity electrostatics) ps)
  /\ (forall canvas gravity electrostatics ps timestamps timestamps',
        List.length timestamps = List.length timestamps' ->
        ParticleSimulator.runFrames canvas gravity electrostatics
          timestamps ps
        = ParticleSimulator.runFrames canvas gravity electrostatics
            timestamps' ps).
Proof.
  assert (Iter : forall canvas gravity electrostatics ps timestamps,
    ParticleSimulator.runFrames canvas gravity electrostatics timestamps ps
    = Nat.iter (List.length timestamps)
        (ParticleSimulator.gameLoop canvas gravity electrostatics) ps).
  { intros canvas gravity electrostatics ps timestamps.
    unfold ParticleSimulator.runFrames. revert ps.
    induction timestamps as [|t ts IH]; intros ps; [reflexivity|].
    cbn [foldl List.length]. rewrite IH, Nat.iter_succ_r. reflexivity. }
  split; [exact gameLoop_lookup_eq|]. split; [|split; [exact Iter|]].
  - intros cv gravity electrostatics ps i p p' Hp Hp' a q.
    rewrite gameLoop_lookup_eq, Hp in Hp'.
    cbn [fmap option_fmap option_map] in Hp'. injection Hp' as <-.
    fold a. fold q.
    split; [reflexivity|].
    assert (Hq : ParticleSimulator.vx q = ParticleSimulator.vx p + fst a
                 /\ ParticleSimulator.x q
                    = ParticleSimulator.x p + ParticleSimulator.vx q)
      by (split; reflexivity).
    split; [reflexivity|]. split; [reflexivity|].
    split; [reflexivity|]. split; [reflexivity|].
    split; [unfold Spec.semi_implicit_euler; simpl; f_equal; lra|].
    split; [unfold Spec.semi_implicit_euler; simpl; f_equal; lra|].
    intros [H0 H1]. destruct Hq as [Hv Hx].
    cbn [ParticleSimulator.wallCollisions ParticleSimulator.vx
         ParticleSimulator.x].
    case_ltb (ParticleSimulator.x q) 0; [lra|].
    case_gtb (ParticleSimulator.x q) (ParticleSimulator.width cv); [lra|].
    cbn [orb]. split; [exact Hv|].
    rewrite Rmin_right by lra. rewrite Rmax_right by lra.
    rewrite Hx, Hv. reflexivity.
  - intros canvas gravity electrostatics ps timestamps timestamps' Hlen.
    rewrite !Iter, Hlen. reflexivity.
Qed.

Lemma tick_ignores_the_clock_witness :
  exists p',
    ParticleSimulator.gameLoop (Some canvas800) 0.1 1
      [particleAt 10 10 1 0 2.1 0] !! 0%nat = Some p'
    /\ ParticleSimulator.x p' = 10 + ParticleSimulator.vx p'
    /\ ParticleSimulator.runFrames (Some canvas800) 0.1 1 [16; 33]
         [particleAt 10 10 1 0 2.1 0]
       = ParticleSimulator.runFrames (Some canvas800) 0.1 1 [5000; 999999]
           [particleAt 10 10 1 0 2.1 0].
Proof.
  destruct tick_ignores_the_clock as (Hl & Hs & _ & Hr).
  pose (p := particleAt 10 10 1 0 2.1 0).
  pose (p' := ParticleSimulator.wallCollisions canvas800
                (ParticleSimulator.integrate
                   (ParticleSimulator.acceleration 0.1 1
                      (ParticleSimulator.turns canvas800 0.1 1 0 [p]) 0 p)
                   p)).
  assert (L : ParticleSimulator.gameLoop (Some canvas800) 0.1 1 [p] !! 0%nat
              = Some p') by (rewrite Hl; reflexivity).
  exists p'. split; [exact L|]. split.
  - destruct (Hs canvas800 0.1 1 [p] 0%nat p p' eq_refl L)
      as (_ & _ & _ & _ & _ & _ & _ & H).
    destruct H as [_ Hx]; [simpl; lra | exact Hx].
  - apply Hr. reflexivity.
Defined.

(** ** The particle engine: the electrostatic pair force *)

(** Below the threshold the pair contributes nothing. *)
Lemma pairForce_close gravity electrostatics p q f :
  separation p q <= 2 ->
  ParticleSimulator.pairForce gravity electrostatics p q f = f.
Proof.
  intros H. unfold ParticleSimulator.pairForce.
  fold (separation p q).
  case_gtb (separation p q) 2; [lra | reflexivity].
Qed.

(** Above it, with gravity switched off, the contribution is the signed
    Coulomb term along the separation vector. *)
Lemma pairForce_far electrostatics p q :
  2 < separation p q ->
  let d := separation p q in
  let c := ParticleSimulator.k * electrostatics
           * (ParticleSimulator.charge p * ParticleSimulator.charge q)
           / (d * d * d) in
  ParticleSimulator.pairForce 0 electrostatics p q (0, 0)
  = (- c * (ParticleSimulator.x q - ParticleSimulator.x p),
     - c * (ParticleSimulator.y q - ParticleSimulator.y p)).
Proof.
  intros H d c.
  assert (Hsq : d * d
                = (ParticleSimulator.x q - ParticleSimulator.x p)
                  * (ParticleSimulator.x q - ParticleSimulator.x p)
                  + (ParticleSimulator.y q - ParticleSimulator.y p)
                    * (ParticleSimulator.y q - ParticleSimulator.y p)).
  { unfold d, separation. apply sqrt_sqrt.
    pose proof (Rle_0_sqr (ParticleSimulator.x q - ParticleSimulator.x p)).
    pose proof (Rle_0_sqr (ParticleSimulator.y q - ParticleSimulator.y p)).
    unfold Rsqr in *. lra. }
  unfold ParticleSimulator.pairForce. fold (separation p q). fold d.
  rewrite <- Hsq.
  case_gtb d 2; [|unfold d in *; lra].
  subst c. cbn [fst snd]. f_equal; field; lra.
Qed.

(** The two accelerations of a two-body tick. *)
Lemma two_body_first_acceleration gravity electrostatics p0 p1 :
  ParticleSimulator.acceleration gravity electrostatics [p0; p1] 0 p0
  = (fst (ParticleSimulator.pairForce gravity electrostatics p0 p1 (0, 0))
     / ParticleSimulator.mass p0,
     snd (ParticleSimulator.pairForce gravity electrostatics p0 p1 (0, 0))
     / ParticleSimulator.mass p0).
Proof. reflexivity. Qed.

Lemma two_body_second_acceleration gravity electrostatics p0 p1 :
  ParticleSimulator.acceleration gravity electrostatics [p0; p1] 1 p1
  = (fst (ParticleSimulator.pairForce gravity electrostatics p1 p0 (0, 0))
     / ParticleSimulator.mass p1,
     snd (ParticleSimulator.pairForce gravity electrostatics p1 p0 (0, 0))
     / ParticleSimulator.mass p1).
Proof. reflexivity. Qed.

(** The acceleration of one body of a pair under electrostatics alone. *)
Lemma pair_acceleration_far electrostatics p q :
  0 < electrostatics -> 0 < ParticleSimulator.mass p ->
  2 < separation p q ->
  let a := (fst (ParticleSimulator.pairForce 0 electrostatics p q (0, 0))
            / ParticleSimulator.mass p,
            snd (ParticleSimulator.pairForce 0 electrostatics p q (0, 0))
            / ParticleSimulator.mass p) in
  (ParticleSimulator.charge p * ParticleSimulator.charge q = -1 ->
   directed_toward a p q)
  /\ (ParticleSimulator.charge p * ParticleSimulator.charge q = 1 ->
      directed_away a p q).
Proof.
  intros He Hm Hd a. subst a.
  rewrite (pairForce_far electrostatics p q Hd). cbn [fst snd].
  set (d := separation p q) in *.
  assert (Hc : 0 < ParticleSimulator.k * electrostatics
                   / (d * d * d * ParticleSimulator.mass p)).
  { apply Rdiv_lt_0_compat.
    - unfold ParticleSimulator.k. lra.
    - repeat apply Rmult_lt_0_compat; lra. }
  split; intros Hq; rewrite Hq;
    exists (ParticleSimulator.k * electrostatics
            / (d * d * d * ParticleSimulator.mass p));
    (split; [exact Hc|]); f_equal; field; lra.
Qed.

Lemma pair_acceleration_close gravity electrostatics p q :
  separation p q <= 2 ->
  (fst (ParticleSimulator.pairForce gravity electrostatics p q (0, 0))
   / ParticleSimulator.mass p,
   snd (ParticleSimulator.pairForce gravity electrostatics p q (0, 0))
   / ParticleSimulator.mass p) = (0, 0).
Proof.
  intros H. rewrite pairForce_close by exact H. cbn [fst snd].
  f_equal; lra.
Qed.

(** C9, amended: with gravity 0 and electrostatic coefficient > 0, of two
    bodies of equal mass the one updated first (index 0) is accelerated
    toward the other when their unit charges are opposite and away from
    it when they are equal, provided their separation exceeds the
    threshold 2.  The one updated second is computed against the
    already-updated position of the first: it is accelerated toward (or
    away from) that position when the updated separation exceeds the
    threshold, and receives no acceleration when it does not. *)
Theorem two_body_electrostatics cv electrostatics p0 p1 :
  0 < electrostatics ->
  0 < ParticleSimulator.mass p0 ->
  ParticleSimulator.mass p1 = ParticleSimulator.mass p0 ->
  let qq := ParticleSimulator.charge p0 * ParticleSimulator.charge p1 in
  let a0 := ParticleSimulator.acceleration 0 electrostatics [p0; p1] 0 p0 in
  let p0' := ParticleSimulator.wallCollisions cv
               (ParticleSimulator.integrate a0 p0) in
  let a1 := ParticleSimulator.acceleration 0 electrostatics [p0'; p1] 1 p1 in
  ParticleSimulator.gameLoop (Some cv) 0 electrostatics [p0; p1]
  = [p0'; ParticleSimulator.wallCollisions cv
            (ParticleSimulator.integrate a1 p1)]
  /\ (2 < separation p0 p1 ->
      (qq = -1 -> directed_toward a0 p0 p1)
      /\ (qq = 1 -> directed_away a0 p0 p1))
  /\ (2 < separation p1 p0' ->
      (qq = -1 -> directed_toward a1 p1 p0')
      /\ (qq = 1 -> directed_away a1 p1 p0'))
  /\ (separation p1 p0' <= 2 -> a1 = (0, 0)).
Proof.
  intros He Hm Hmm qq a0 p0' a1.
  split; [reflexivity|].
  split; [|split].
  - intros Hd. subst a0. rewrite two_body_first_acceleration.
    apply pair_acceleration_far; assumption.
  - intros Hd. subst a1. rewrite two_body_second_acceleration.
    assert (Hq : ParticleSimulator.charge p1 * ParticleSimulator.charge p0'
                 = qq).
    { subst qq p0'. cbn [ParticleSimulator.charge
        ParticleSimulator.wallCollisions ParticleSimulator.integrate].
      apply Rmult_comm. }
    rewrite <- Hq.
    apply pair_acceleration_far; [assumption | rewrite Hmm; assumption
                                  | assumption].
  - intros Hd. subst a1. rewrite two_body_second_acceleration.
    apply pair_acceleration_close. exact Hd.
Qed.

Lemma sqrt_of_square_plus_zero dx dy d :
  0 <= d -> dx * dx + dy * dy = d * d -> sqrt (dx * dx + dy * dy) = d.
Proof. intros Hd ->. apply sqrt_square. exact Hd. Qed.

(** A proton-like and an electron-like body of mass 1, ten units apart. *)
Lemma two_body_electrostatics_witness :
  directed_toward
    (ParticleSimulator.acceleration 0 1
       [particleAt 100 100 0 0 1 1; particleAt 110 100 0 0 1 (-1)] 0
       (particleAt 100 100 0 0 1 1))
    (particleAt 100 100 0 0 1 1) (particleAt 110 100 0 0 1 (-1)).
Proof.
  refine (proj1 (proj1 (proj2 (two_body_electrostatics canvas800 1
            (particleAt 100 100 0 0 1 1) (particleAt 110 100 0 0 1 (-1))
            _ _ _)) _) _).
  - lra.
  - simpl. lra.
  - reflexivity.
  - unfold separation. simpl.
    rewrite (sqrt_of_square_plus_zero _ _ 10) by lra. lra.
  - simpl. lra.
Defined.

(** C9 fails for the body updated second.  A unit positive and a unit
    negative charge of mass 1 rest 3 units apart, above the threshold;
    electrostatic coefficient 1, gravity 0.  Body 0 is pulled 10/9 toward
    body 1, which leaves them 17/9 apart, below the threshold: when its
    turn comes body 1 receives no acceleration and stays where it was. *)
Lemma opposite_charges_attract_counterexample :
  let p0 := particleAt 100 100 0 0 1 1 in
  let p1 := particleAt 103 100 0 0 1 (-1) in
  let before1 := ParticleSimulator.turns canvas800 0 1 1 [p0; p1] in
  let a1 := ParticleSimulator.acceleration 0 1 before1 1 p1 in
  separation p0 p1 = 3
  /\ a1 = (0, 0)
  /\ ~ directed_toward a1 p1 p0
  /\ (exists p1',
        ParticleSimulator.gameLoop (Some canvas800) 0 1 [p0; p1] !! 1%nat
        = Some p1'
        /\ ParticleSimulator.x p1' = 103 /\ ParticleSimulator.vx p1' = 0).
Proof.
  intros p0 p1 before1 a1.
  assert (S3 : separation p0 p1 = 3).
  { unfold separation. simpl.
    apply sqrt_of_square_plus_zero; lra. }
  pose (a0 := ParticleSimulator.acceleration 0 1 [p0; p1] 0 p0).
  pose (p0' := ParticleSimulator.wallCollisions canvas800
                 (ParticleSimulator.integrate a0 p0)).
  assert (A0 : a0 = (- (10 * 1 * (1 * -1) / (3 * 3 * 3)) * (103 - 100),
                     - (10 * 1 * (1 * -1) / (3 * 3 * 3)) * (100 - 100))).
  { unfold a0. rewrite two_body_first_acceleration.
    rewrite pairForce_far by (rewrite S3; lra). rewrite S3.
    cbn [fst snd]. unfold ParticleSimulator.k. simpl. f_equal; lra. }
  assert (X0 : ParticleSimulator.x p0' = 100 + 10 / 9
               /\ ParticleSimulator.y p0' = 100).
  { unfold p0'. rewrite A0. simpl.
    split.
    - rewrite Rmin_right by lra. rewrite Rmax_right by lra. lra.
    - rewrite Rmin_right by lra. rewrite Rmax_right by lra. lra. }
  destruct X0 as [X0 Y0].
  assert (Sclose : separation p1 p0' <= 2).
  { unfold separation. rewrite X0, Y0. simpl.
    rewrite (sqrt_of_square_plus_zero _ _ (17 / 9)) by lra. lra. }
  assert (B : before1 = [p0'; p1]) by reflexivity.
  assert (A1 : a1 = (0, 0)).
  { unfold a1. rewrite B, two_body_second_acceleration.
    apply pair_acceleration_close. exact Sclose. }
  split; [exact S3|]. split; [exact A1|]. split.
  - rewrite A1. intros (c & Hc & E). injection E as E1 E2.
    simpl in E1. nra.
  - assert (GL : ParticleSimulator.gameLoop (Some canvas800) 0 1 [p0; p1]
                 = [p0'; ParticleSimulator.wallCollisions canvas800
                           (ParticleSimulator.integrate a1 p1)])
      by reflexivity.
    exists (ParticleSimulator.wallCollisions canvas800
              (ParticleSimulator.integrate a1 p1)).
    split; [rewrite GL; reflexivity|].
    rewrite A1. simpl. split.
    + rewrite Rmin_right by lra. rewrite Rmax_right by lra. lra.
    + case_ltb (103 + (0 + 0)) 0; simpl; [lra|].
      case_gtb (103 + (0 + 0)) 800; simpl; lra.
Qed.

(** * Further properties of the code *)

(** ** The pendulum over a run of frames *)

(** The last element of a list that starts with [t], or else [t]. *)
Lemma default_last_cons {A} (d t : A) (ts : list A) :
  default d (last (t :: ts)) = default t (last ts).
Proof.
  revert d t. induction ts as [|t' ts IH]; intros d t; [reflexivity|].
  change (last (t :: t' :: ts)) with (last (t' :: ts)).
  rewrite (IH d t'), (IH t t'). reflexivity.
Qed.

(** X1: Over any run of frames whose timestamps never go back, starting
    from a positive baseline, the pendulum's clock never runs backwards,
    and the baseline ends at the timestamp of the last frame. *)
Theorem pendulum_run_time p timestamps s :
  0 < SimplePendulum.lastUpdateTime s ->
  nondecreasing_from (SimplePendulum.lastUpdateTime s) timestamps ->
  let s' := SimplePendulum.run p timestamps s in
  SimplePendulum.lastUpdateTime s'
  = default (SimplePendulum.lastUpdateTime s) (last timestamps)
  /\ SimplePendulum.time s <= SimplePendulum.time s'.
Proof.
  revert s. induction timestamps as [|t ts IH]; intros s Hlast Hts s'.
  - subst s'. simpl. split; [reflexivity | lra].
  - destruct Hts as [Ht Hts]. subst s'.
    unfold SimplePendulum.run in *. cbn [foldl].
    set (s1 := SimplePendulum.animate p t s).
    assert (L1 : SimplePendulum.lastUpdateTime s1 = t) by reflexivity.
    assert (T1 : SimplePendulum.time s <= SimplePendulum.time s1).
    { unfold s1, SimplePendulum.animate.
      rewrite pendulum_deltaTime_some by exact Hlast. simpl. lra. }
    destruct (IH s1) as [IH1 IH2];
      [rewrite L1; lra | rewrite L1; exact Hts |].
    split.
    + rewrite IH1, L1. symmetry. apply default_last_cons.
    + lra.
Qed.

Lemma pendulum_run_time_witness :
  SimplePendulum.time (pendulumAt 0.5 0 0 1000)
  <= SimplePendulum.time
       (SimplePendulum.run pendulumDefaults [1016; 1033; 1050]
          (pendulumAt 0.5 0 0 1000)).
Proof.
  refine (proj2 (pendulum_run_time pendulumDefaults [1016; 1033; 1050]
                   (pendulumAt 0.5 0 0 1000) _ _)).
  - simpl. lra.
  - simpl. lra.
Defined.

(** X2: A pendulum hanging at rest stays at rest through every run of
    frames, whatever their timestamps. *)
Theorem pendulum_rest_is_fixed p timestamps s :
  SimplePendulum.angle s = 0 ->
  SimplePendulum.angularVelocity s = 0 ->
  SimplePendulum.angle (SimplePendulum.run p timestamps s) = 0
  /\ SimplePendulum.angularVelocity (SimplePendulum.run p timestamps s) = 0.
Proof.
  revert s. induction timestamps as [|t ts IH]; intros s Ha Hw.
  - split; assumption.
  - unfold SimplePendulum.run in *. cbn [foldl]. apply IH.
    + unfold SimplePendulum.animate.
      destruct (SimplePendulum.deltaTime t s); simpl; [|exact Ha].
      rewrite Ha, Hw. lra.
    + unfold SimplePendulum.animate.
      destruct (SimplePendulum.deltaTime t s); simpl; [|exact Hw].
      rewrite Ha, Hw. lra.
Qed.

Lemma pendulum_rest_is_fixed_witness :
  SimplePendulum.angle
    (SimplePendulum.run pendulumDefaults [1016; 5000]
       (pendulumAt 0 0 0 1000)) = 0.
Proof.
  refine (proj1 (pendulum_rest_is_fixed pendulumDefaults [1016; 5000]
                   (pendulumAt 0 0 0 1000) _ _)); reflexivity.
Defined.

(** ** The pendulum's read-outs *)

Lemma pendulum_energy_scale p :
  0 <= SimplePendulum.mass p -> 0 <= SimplePendulum.gravity p ->
  0 <= SimplePendulum.length p ->
  0 <= 0.5 * SimplePendulum.mass p * SimplePendulum.gravity p
       * SimplePendulum.length p.
Proof.
  intros Hm Hg Hl.
  apply Rmult_le_pos; [|exact Hl].
  apply Rmult_le_pos; [|exact Hg].
  apply Rmult_le_pos; [lra | exact Hm].
Qed.



(** X4: The kinetic-energy bar is always filled between 0 and 100 percent,
    also when the total energy is 0 and the bar's maximum falls back
    to 1. *)
Theorem kinetic_bar_in_range p s :
  0 <= SimplePendulum.mass p -> 0 <= SimplePendulum.gravity p ->
  0 <= SimplePendulum.length p ->
  0 <= SimplePendulum.kineticBar p s <= 100.
Proof.
  intros Hm Hg Hl.
  pose proof (pendulum_energy_scale p Hm Hg Hl) as Hc.
  unfold SimplePendulum.kineticBar, SimplePendulum.percentage, orElse,
    SimplePendulum.kineticEnergy.
  assert (Ht : 0 <= SimplePendulum.totalEnergy p).
  { unfold SimplePendulum.totalEnergy. apply Rmult_le_pos; [exact Hc|].
    apply pow2_ge_0. }
  assert (Hp : 0 <= SimplePendulum.potentialEnergy p s).
  { unfold SimplePendulum.potentialEnergy. apply Rmult_le_pos; [exact Hc|].
    apply pow2_ge_0. }
  destruct (Req_dec_T (SimplePendulum.totalEnergy p) 0) as [Z|NZ].
  - case_gtb 1 0; [|lra].
    rewrite Z. rewrite Rmax_left by lra. lra.
  - case_gtb (SimplePendulum.totalEnergy p) 0; [|lra].
    set (T := SimplePendulum.totalEnergy p) in *.
    set (K := Rmax 0 (T - SimplePendulum.potentialEnergy p s)).
    assert (HK : 0 <= K <= T).
    { unfold K. split; [apply Rmax_l|]. apply Rmax_lub; lra. }
    split.
    + apply Rmult_le_pos; [|lra]. unfold Rdiv.
      apply Rmult_le_pos; [lra|]. left. apply Rinv_0_lt_compat. lra.
    + assert (K / T <= 1).
      { apply Rmult_le_reg_r with T; [lra|].
        unfold Rdiv. rewrite Rmult_assoc, Rinv_l by lra. lra. }
      lra.
Qed.

Lemma kinetic_bar_in_range_witness :
  0 <= SimplePendulum.kineticBar pendulumDefaults (pendulumAt 0.2 0 0 0)
  <= 100.
Proof.
  apply kinetic_bar_in_range; simpl; lra.
Defined.




(** ** The incline *)

Lemma incline_net_force_factor (p : InclinedPlane.Params) :
  let theta := (InclinedPlane.angle p * PI) / 180 in
  InclinedPlane.mass p * InclinedPlane.GRAVITY * sin theta
  - InclinedPlane.friction p
    * (InclinedPlane.mass p * InclinedPlane.GRAVITY * cos theta)
  = InclinedPlane.mass p
    * (InclinedPlane.GRAVITY
       * (sin theta - InclinedPlane.friction p * cos theta)).
Proof. intros theta. ring. Qed.

(** For a positive mass the acceleration is [g (sin - mu cos)] cut off
    below at 0. *)
Lemma incline_acceleration_positive_mass (p : InclinedPlane.Params) :
  0 < InclinedPlane.mass p ->
  let theta := (InclinedPlane.angle p * PI) / 180 in
  InclinedPlane.acceleration p
  = Rmax 0 (InclinedPlane.GRAVITY
            * (sin theta - InclinedPlane.friction p * cos theta)).
Proof.
  intros Hm theta. rewrite incline_acceleration_cases.
  rewrite (incline_net_force_factor p). fold theta.
  set (a := InclinedPlane.GRAVITY
            * (sin theta - InclinedPlane.friction p * cos theta)).
  match goal with |- context [gtb ?x ?y] => case_gtb x y end.
  - assert (0 < a) by nra. rewrite Rmax_right by lra. field. lra.
  - assert (a <= 0) by nra. rewrite Rmax_left by lra. reflexivity.
Qed.

(** X7: The block's acceleration is never negative and never exceeds [g]
    (positive mass, friction not negative, angle between 0 and 90
    degrees). *)
Theorem incline_acceleration_range (p : InclinedPlane.Params) :
  0 < InclinedPlane.mass p ->
  0 <= InclinedPlane.friction p ->
  0 <= InclinedPlane.angle p <= 90 ->
  0 <= InclinedPlane.acceleration p <= InclinedPlane.GRAVITY.
Proof.
  intros Hm Hf [Ha0 Ha1].
  rewrite incline_acceleration_positive_mass by exact Hm.
  set (theta := InclinedPlane.angle p * PI / 180).
  pose proof PI_RGT_0 as Hpi.
  assert (Hc : 0 <= cos theta).
  { apply cos_ge_0; unfold theta; nra. }
  pose proof (SIN_bound theta) as [_ Hs].
  assert (Hg : 0 < InclinedPlane.GRAVITY)
    by (unfold InclinedPlane.GRAVITY; lra).
  split; [apply Rmax_l|].
  apply Rmax_lub; [lra|].
  assert (0 <= InclinedPlane.friction p * cos theta)
    by (apply Rmult_le_pos; assumption).
  nra.
Qed.

Lemma incline_acceleration_range_witness :
  0 <= InclinedPlane.acceleration inclineDefaults <= InclinedPlane.GRAVITY.
Proof.
  apply incline_acceleration_range; simpl; lra.
Defined.

(** One tick of a block that is on the track and not moving backwards,
    with a baseline not later than the frame. *)
Lemma incline_animate_forward p timestamp s :
  0 < InclinedPlane.mass p ->
  0 < InclinedPlane.lastUpdateTime s <= timestamp ->
  0 <= InclinedPlane.velocity s ->
  InclinedPlane.position s <= InclinedPlane.maxPosition ->
  let s' := InclinedPlane.animate p timestamp s in
  InclinedPlane.lastUpdateTime s' = timestamp
  /\ InclinedPlane.velocity s <= InclinedPlane.velocity s'
  /\ InclinedPlane.position s <= InclinedPlane.position s'
     <= InclinedPlane.maxPosition.
Proof.
  intros Hm [Hl Ht] Hv Hx s'. subst s'.
  assert (Ha : 0 <= InclinedPlane.acceleration p).
  { rewrite incline_acceleration_positive_mass by exact Hm. apply Rmax_l. }
  unfold InclinedPlane.animate.
  rewrite incline_deltaTime_some by exact Hl.
  set (dt := (timestamp - InclinedPlane.lastUpdateTime s) / 1000).
  assert (Hdt : 0 <= dt) by (unfold dt; lra).
  assert (Hadt : 0 <= InclinedPlane.acceleration p * dt)
    by (apply Rmult_le_pos; assumption).
  unfold InclinedPlane.integrate.
  set (v1 := InclinedPlane.velocity s + InclinedPlane.acceleration p * dt).
  assert (Hv1 : 0 <= v1 * dt) by (apply Rmult_le_pos; unfold v1; lra).
  match goal with |- context [geb ?a ?b] => case_geb a b end; simpl;
    unfold v1 in *; repeat split; lra.
Qed.

(** X9: Through every run of frames whose timestamps never go back, a block
    that starts on the track and not moving backwards never slides back,
    never slows down and never passes the end of the track. *)
Theorem incline_run_forward p timestamps s :
  0 < InclinedPlane.mass p ->
  0 < InclinedPlane.lastUpdateTime s ->
  nondecreasing_from (InclinedPlane.lastUpdateTime s) timestamps ->
  0 <= InclinedPlane.velocity s ->
  InclinedPlane.position s <= InclinedPlane.maxPosition ->
  let s' := InclinedPlane.run p timestamps s in
  InclinedPlane.velocity s <= InclinedPlane.velocity s'
  /\ InclinedPlane.position s <= InclinedPlane.position s'
     <= InclinedPlane.maxPosition.
Proof.
  intros Hm. revert s.
  induction timestamps as [|t ts IH]; intros s Hl Hts Hv Hx s'.
  - subst s'. simpl. lra.
  - destruct Hts as [Ht Hts]. subst s'.
    unfold InclinedPlane.run in *. cbn [foldl].
    destruct (incline_animate_forward p t s Hm (conj Hl Ht) Hv Hx)
      as (L1 & V1 & X1 & X2).
    set (s1 := InclinedPlane.animate p t s) in *.
    destruct (IH s1) as (V2 & X3 & X4).
    + rewrite L1. lra.
    + rewrite L1. exact Hts.
    + lra.
    + exact X2.
    + repeat split; lra.
Qed.

Lemma incline_run_forward_witness :
  let s0 := InclinedPlane.start 1000
              (InclinedPlane.resetState
                 {| InclinedPlane.position := 7;
                    InclinedPlane.velocity := 2;
                    InclinedPlane.time := 3;
                    InclinedPlane.lastUpdateTime := 500;
                    InclinedPlane.isRunning := true |}) in
  InclinedPlane.position
    (InclinedPlane.run inclineDefaults [1016; 1033; 9000] s0)
  <= InclinedPlane.maxPosition.
Proof.
  intros s0.
  refine (proj2 (proj2 (incline_run_forward inclineDefaults
                          [1016; 1033; 9000] s0 _ _ _ _ _))).
  - simpl. lra.
  - simpl. lra.
  - simpl. lra.
  - simpl. lra.
  - simpl. unfold InclinedPlane.maxPosition. lra.
Defined.

(** X10: When friction holds the block ([sin <= mu cos], mass not negative) a
    block at rest never moves, however long the simulation runs. *)
Theorem incline_friction_holds_block p timestamps s :
  0 <= InclinedPlane.mass p ->
  sin (InclinedPlane.angle p * PI / 180)
  <= InclinedPlane.friction p * cos (InclinedPlane.angle p * PI / 180) ->
  InclinedPlane.velocity s = 0 ->
  InclinedPlane.position s <= InclinedPlane.maxPosition ->
  let s' := InclinedPlane.run p timestamps s in
  InclinedPlane.velocity s' = 0
  /\ InclinedPlane.position s' = InclinedPlane.position s.
Proof.
  intros Hm Hmu. 
  assert (Ha : InclinedPlane.acceleration p = 0).
  { rewrite incline_acceleration_cases, incline_net_force_factor.
    match goal with |- context [gtb ?x ?y] => case_gtb x y end;
      [|reflexivity].
    exfalso.
    assert (0 < InclinedPlane.GRAVITY)
      by (unfold InclinedPlane.GRAVITY; lra).
    set (d := sin (InclinedPlane.angle p * PI / 180)
              - InclinedPlane.friction p
                * cos (InclinedPlane.angle p * PI / 180)) in *.
    assert (d <= 0) by (unfold d; lra).
    assert (InclinedPlane.GRAVITY * d <= 0) by nra.
    nra. }
  revert s. induction timestamps as [|t ts IH]; intros s Hv Hx s'.
  - subst s'. split; [exact Hv | reflexivity].
  - subst s'. unfold InclinedPlane.run in *. cbn [foldl].
    set (s1 := InclinedPlane.animate p t s).
    assert (H1 : InclinedPlane.velocity s1 = 0
                 /\ InclinedPlane.position s1 = InclinedPlane.position s).
    { unfold s1, InclinedPlane.animate.
      destruct (InclinedPlane.deltaTime t s) as [dt|]; simpl;
        [|split; [exact Hv | reflexivity]].
      unfold InclinedPlane.integrate. rewrite Ha, Hv.
      match goal with |- context [geb ?a ?b] => case_geb a b end; simpl.
      - replace (InclinedPlane.position s + (0 + 0 * dt) * dt)
          with (InclinedPlane.position s) in E by ring.
        split; [ring | lra].
      - split; ring. }
    destruct H1 as [V1 X1].
    destruct (IH s1 V1) as [V2 X2]; [rewrite X1; exact Hx|].
    split; [exact V2 | rewrite X2; exact X1].
Qed.

Lemma incline_friction_holds_block_witness :
  let p := {| InclinedPlane.angle := 0; InclinedPlane.mass := 5;
              InclinedPlane.friction := 0.2 |} in
  let s0 := {| InclinedPlane.position := 0; InclinedPlane.velocity := 0;
               InclinedPlane.time := 0;
               InclinedPlane.lastUpdateTime := 1000;
               InclinedPlane.isRunning := true |} in
  InclinedPlane.position (InclinedPlane.run p [1016; 60000] s0) = 0.
Proof.
  intros p s0.
  refine (proj2 (incline_friction_holds_block p [1016; 60000] s0 _ _ _ _)).
  - simpl. lra.
  - simpl. replace (0 * PI / 180) with 0 by lra.
    rewrite sin_0, cos_0. lra.
  - reflexivity.
  - simpl. unfold InclinedPlane.maxPosition. lra.
Defined.




(** ** MRU: elapsed time over a run *)

(** The facts a run keeps: the elapsed time stays below the total time
    while the run goes on and sits on it once the run has stopped. *)
Lemma mru_animate_keeps timestamp s :
  0 <= MRU.deltaTime timestamp s ->
  (MRU.isRunning s = true ->
   MRU.elapsedTime s < MRU.totalTime (MRU.params s)) ->
  (MRU.isRunning s = false ->
   MRU.elapsedTime s = MRU.totalTime (MRU.params s)) ->
  let s' := MRU.animate timestamp s in
  MRU.params s' = MRU.params s
  /\ MRU.lastTimeRef s' = Some timestamp
  /\ MRU.elapsedTime s <= MRU.elapsedTime s'
  /\ (MRU.isRunning s' = true ->
      MRU.elapsedTime s' < MRU.totalTime (MRU.params s))
  /\ (MRU.isRunning s' = false ->
      MRU.elapsedTime s' = MRU.totalTime (MRU.params s)).
Proof.
  intros Hd Hrun Hstop s'. subst s'. unfold MRU.animate.
  destruct (MRU.isRunning s) eqn:R.
  - specialize (Hrun eq_refl).
    match goal with |- context [geb ?a ?b] => case_geb a b end; simpl;
      repeat split; try reflexivity; try lra; try discriminate;
      intros _; lra.
  - specialize (Hstop eq_refl).
    match goal with |- context [geb ?a ?b] => case_geb a b end; simpl;
      repeat split; try reflexivity; try lra; try discriminate;
      intros _; lra.
Qed.

Lemma mru_run_keeps t0 timestamps s :
  MRU.lastTimeRef s = Some t0 ->
  nondecreasing_from t0 timestamps ->
  (MRU.isRunning s = true ->
   MRU.elapsedTime s < MRU.totalTime (MRU.params s)) ->
  (MRU.isRunning s = false ->
   MRU.elapsedTime s = MRU.totalTime (MRU.params s)) ->
  let s' := MRU.run timestamps s in
  MRU.params s' = MRU.params s
  /\ MRU.lastTimeRef s' = Some (default t0 (last timestamps))
  /\ MRU.elapsedTime s <= MRU.elapsedTime s'
  /\ (MRU.isRunning s' = true ->
      MRU.elapsedTime s' < MRU.totalTime (MRU.params s))
  /\ (MRU.isRunning s' = false ->
      MRU.elapsedTime s' = MRU.totalTime (MRU.params s)).
Proof.
  revert t0 s. induction timestamps as [|t ts IH];
    intros t0 s Hb Hts Hrun Hstop s'.
  - subst s'. simpl. repeat split; try assumption. lra.
  - destruct Hts as [Ht Hts]. subst s'.
    unfold MRU.run in *. cbn [foldl].
    assert (D : 0 <= MRU.deltaTime t s).
    { unfold MRU.deltaTime. rewrite Hb. lra. }
    destruct (mru_animate_keeps t s D Hrun Hstop) as (P1 & B1 & E1 & R1 & S1).
    set (s1 := MRU.animate t s) in *.
    rewrite <- P1 in R1, S1.
    destruct (IH t s1 B1 Hts R1 S1) as (P2 & B2 & E2 & R2 & S2).
    rewrite P1 in P2, R2, S2.
    split; [exact P2|]. split.
    + rewrite B2. f_equal. symmetry. apply default_last_cons.
    + split; [lra|]. split; assumption.
Qed.

(** X12: From pressing play, over frames whose timestamps never go back
    (total time positive), the parameters are untouched, the baseline
    ends at the last frame's timestamp, the elapsed time never decreases
    and never passes the total time, and the run has stopped exactly when
    the elapsed time sits on the total time. *)
Theorem mru_run_elapsed t1 timestamps s :
  0 < MRU.totalTime (MRU.params s) ->
  nondecreasing_from t1 timestamps ->
  let s0 := MRU.start s in
  let s' := MRU.run (t1 :: timestamps) s0 in
  let total := MRU.totalTime (MRU.params s) in
  MRU.params s' = MRU.params s
  /\ MRU.lastTimeRef s' = Some (default t1 (last timestamps))
  /\ MRU.elapsedTime s0 <= MRU.elapsedTime s' <= total
  /\ (MRU.isRunning s' = false <-> MRU.elapsedTime s' = total).
Proof.
  intros HT Hts s0 s' total.
  assert (E0 : MRU.elapsedTime s0 < total).
  { unfold s0, MRU.start, total. simpl.
    case_geb (MRU.elapsedTime s) (MRU.totalTime (MRU.params s)); lra. }
  assert (D : 0 <= MRU.deltaTime t1 s0).
  { unfold MRU.deltaTime, s0. simpl. lra. }
  destruct (mru_animate_keeps t1 s0 D) as (P1 & B1 & E1 & R1 & S1).
  { intros _. exact E0. }
  { intros H. discriminate H. }
  set (s1 := MRU.animate t1 s0) in *.
  rewrite <- P1 in R1, S1.
  destruct (mru_run_keeps t1 timestamps s1 B1 Hts R1 S1)
    as (P2 & B2 & E2 & R2 & S2).
  rewrite P1 in P2, R2, S2.
  change (MRU.run timestamps s1) with s' in *.
  change (MRU.params s0) with (MRU.params s) in *. fold total in R2, S2.
  split; [exact P2|]. split; [exact B2|].
  destruct (MRU.isRunning s') eqn:R.
  - specialize (R2 eq_refl). split; [lra|]. split; [discriminate | lra].
  - specialize (S2 eq_refl). split; [lra|]. split; [intros _; exact S2|].
    reflexivity.
Qed.

Lemma mru_run_elapsed_witness :
  let s := {| MRU.params := {| MRU.initialPosition := 0; MRU.velocity := 10;
                               MRU.totalTime := 10 |};
              MRU.lastTimeRef := Some 77; MRU.elapsedTime := 2;
              MRU.isRunning := false |} in
  MRU.elapsedTime (MRU.start s)
  <= MRU.elapsedTime (MRU.run [1000; 1500; 4000] (MRU.start s)) <= 10.
Proof.
  intros s.
  refine (proj1 (proj2 (proj2 (mru_run_elapsed 1000 [1500; 4000] s _ _)))).
  - simpl. lra.
  - simpl. lra.
Defined.

(** ** MRUV: elapsed time over a run *)

(** The facts a run keeps: the elapsed time stays below the total time
    while the run goes on and sits on it once the run has stopped. *)
Lemma mruv_animate_keeps timestamp s :
  0 <= MRUV.deltaTime timestamp s ->
  (MRUV.isRunning s = true ->
   MRUV.elapsedTime s < MRUV.totalTime (MRUV.params s)) ->
  (MRUV.isRunning s = false ->
   MRUV.elapsedTime s = MRUV.totalTime (MRUV.params s)) ->
  let s' := MRUV.animate timestamp s in
  MRUV.params s' = MRUV.params s
  /\ MRUV.lastTimeRef s' = Some timestamp
  /\ MRUV.elapsedTime s <= MRUV.elapsedTime s'
  /\ (MRUV.isRunning s' = true ->
      MRUV.elapsedTime s' < MRUV.totalTime (MRUV.params s))
  /\ (MRUV.isRunning s' = false ->
      MRUV.elapsedTime s' = MRUV.totalTime (MRUV.params s)).
Proof.
  intros Hd Hrun Hstop s'. subst s'. unfold MRUV.animate.
  destruct (MRUV.isRunning s) eqn:R.
  - specialize (Hrun eq_refl).
    match goal with |- context [geb ?a ?b] => case_geb a b end; simpl;
      repeat split; try reflexivity; try lra; try discriminate;
      intros _; lra.
  - specialize (Hstop eq_refl).
    match goal with |- context [geb ?a ?b] => case_geb a b end; simpl;
      repeat split; try reflexivity; try lra; try discriminate;
      intros _; lra.
Qed.

Lemma mruv_run_keeps t0 timestamps s :
  MRUV.lastTimeRef s = Some t0 ->
  nondecreasing_from t0 timestamps ->
  (MRUV.isRunning s = true ->
   MRUV.elapsedTime s < MRUV.totalTime (MRUV.params s)) ->
  (MRUV.isRunning s = false ->
   MRUV.elapsedTime s = MRUV.totalTime (MRUV.params s)) ->
  let s' := MRUV.run timestamps s in
  MRUV.params s' = MRUV.params s
  /\ MRUV.lastTimeRef s' = Some (default t0 (last timestamps))
  /\ MRUV.elapsedTime s <= MRUV.elapsedTime s'
  /\ (MRUV.isRunning s' = true ->
      MRUV.elapsedTime s' < MRUV.totalTime (MRUV.params s))
  /\ (MRUV.isRunning s' = false ->
      MRUV.elapsedTime s' = MRUV.totalTime (MRUV.params s)).
Proof.
  revert t0 s. induction timestamps as [|t ts IH];
    intros t0 s Hb Hts Hrun Hstop s'.
  - subst s'. simpl. repeat split; try assumption. lra.
  - destruct Hts as [Ht Hts]. subst s'.
    unfold MRUV.run in *. cbn [foldl].
    assert (D : 0 <= MRUV.deltaTime t s).
    { unfold MRUV.deltaTime. rewrite Hb. lra. }
    destruct (mruv_animate_keeps t s D Hrun Hstop) as (P1 & B1 & E1 & R1 & S1).
    set (s1 := MRUV.animate t s) in *.
    rewrite <- P1 in R1, S1.
    destruct (IH t s1 B1 Hts R1 S1) as (P2 & B2 & E2 & R2 & S2).
    rewrite P1 in P2, R2, S2.
    split; [exact P2|]. split.
    + rewrite B2. f_equal. symmetry. apply default_last_cons.
    + split; [lra|]. split; assumption.
Qed.

(** X13: From pressing play, over frames whose timestamps never go back
    (total time positive), the parameters are untouched, the baseline
    ends at the last frame's timestamp, the elapsed time never decreases
    and never passes the total time, and the run has stopped exactly when
    the elapsed time sits on the total time. *)
Theorem mruv_run_elapsed t1 timestamps s :
  0 < MRUV.totalTime (MRUV.params s) ->
  nondecreasing_from t1 timestamps ->
  let s0 := MRUV.start s in
  let s' := MRUV.run (t1 :: timestamps) s0 in
  let total := MRUV.totalTime (MRUV.params s) in
  MRUV.params s' = MRUV.params s
  /\ MRUV.lastTimeRef s' = Some (default t1 (last timestamps))
  /\ MRUV.elapsedTime s0 <= MRUV.elapsedTime s' <= total
  /\ (MRUV.isRunning s' = false <-> MRUV.elapsedTime s' = total).
Proof.
  intros HT Hts s0 s' total.
  assert (E0 : MRUV.elapsedTime s0 < total).
  { unfold s0, MRUV.start, total. simpl.
    case_geb (MRUV.elapsedTime s) (MRUV.totalTime (MRUV.params s)); lra. }
  assert (D : 0 <= MRUV.deltaTime t1 s0).
  { unfold MRUV.deltaTime, s0. simpl. lra. }
  destruct (mruv_animate_keeps t1 s0 D) as (P1 & B1 & E1 & R1 & S1).
  { intros _. exact E0. }
  { intros H. discriminate H. }
  set (s1 := MRUV.animate t1 s0) in *.
  rewrite <- P1 in R1, S1.
  destruct (mruv_run_keeps t1 timestamps s1 B1 Hts R1 S1)
    as (P2 & B2 & E2 & R2 & S2).
  rewrite P1 in P2, R2, S2.
  change (MRUV.run timestamps s1) with s' in *.
  change (MRUV.params s0) with (MRUV.params s) in *. fold total in R2, S2.
  split; [exact P2|]. split; [exact B2|].
  destruct (MRUV.isRunning s') eqn:R.
  - specialize (R2 eq_refl). split; [lra|]. split; [discriminate | lra].
  - specialize (S2 eq_refl). split; [lra|]. split; [intros _; exact S2|].
    reflexivity.
Qed.

Lemma mruv_run_elapsed_witness :
  let s := {| MRUV.params := {| MRUV.initialPosition := 0; MRUV.initialVelocity := 5; MRUV.acceleration := 2;
                               MRUV.totalTime := 10 |};
              MRUV.lastTimeRef := Some 77; MRUV.elapsedTime := 2;
              MRUV.isRunning := false |} in
  MRUV.elapsedTime (MRUV.start s)
  <= MRUV.elapsedTime (MRUV.run [1000; 1500; 4000] (MRUV.start s)) <= 10.
Proof.
  intros s.
  refine (proj1 (proj2 (proj2 (mruv_run_elapsed 1000 [1500; 4000] s _ _)))).
  - simpl. lra.
  - simpl. lra.
Defined.

(** ** MRU and MRUV: what is shown *)

(** The padding of the MRU window is positive, so the window is never
    empty and [mapX] never takes its fallback branch. *)
Lemma mru_padding_positive q : 0 < MRU.padding q.
Proof.
  unfold MRU.padding, orElse.
  pose proof (Rabs_pos (MRU.posEnd q - MRU.posStart q)).
  destruct (Req_dec_T _ 0); lra.
Qed.

(** X14: While the elapsed time is between 0 and the total time, the body is
    drawn strictly inside the canvas, between its left and right edge;
    the world window always has a positive width. *)
Theorem mru_body_stays_on_canvas s width :
  0 < width ->
  0 <= MRU.elapsedTime s <= MRU.totalTime (MRU.params s) ->
  0 < MRU.worldWidth (MRU.params s)
  /\ 0 < MRU.mapX (MRU.params s) width (MRU.currentPosition s) < width.
Proof.
  intros Hw [He0 He1].
  set (q := MRU.params s).
  pose proof (mru_padding_positive q) as Hp.
  pose proof (Rmin_l (MRU.posStart q) (MRU.posEnd q)) as Hminl.
  pose proof (Rmin_r (MRU.posStart q) (MRU.posEnd q)) as Hminr.
  pose proof (Rmax_l (MRU.posStart q) (MRU.posEnd q)) as Hmaxl.
  pose proof (Rmax_r (MRU.posStart q) (MRU.posEnd q)) as Hmaxr.
  assert (HW : 0 < MRU.worldWidth q).
  { unfold MRU.worldWidth, MRU.maxWorldX, MRU.minWorldX. lra. }
  split; [exact HW|].
  assert (Hx : MRU.minWorldX q < MRU.currentPosition s < MRU.maxWorldX q).
  { unfold MRU.maxWorldX, MRU.minWorldX, MRU.currentPosition. fold q.
    unfold MRU.posStart, MRU.posEnd in *.
    destruct (Rle_dec 0 (MRU.velocity q)) as [Hv|Hv].
    - assert (0 <= MRU.velocity q * MRU.elapsedTime s
              <= MRU.velocity q * MRU.totalTime q) by (fold q in He1; nra).
      lra.
    - assert (MRU.velocity q * MRU.totalTime q
              <= MRU.velocity q * MRU.elapsedTime s <= 0)
        by (fold q in He1; nra).
      lra. }
  unfold MRU.mapX.
  destruct (Req_dec_T (MRU.worldWidth q) 0) as [Z|_]; [lra|].
  set (f := (MRU.currentPosition s - MRU.minWorldX q) / MRU.worldWidth q).
  assert (Hf : 0 < f < 1).
  { unfold f. split.
    - apply Rdiv_lt_0_compat; lra.
    - apply Rmult_lt_reg_r with (MRU.worldWidth q); [exact HW|].
      unfold Rdiv. rewrite Rmult_assoc, Rinv_l by lra.
      unfold MRU.worldWidth. lra. }
  split; nra.
Qed.

Lemma mru_body_stays_on_canvas_witness :
  let s := {| MRU.params := {| MRU.initialPosition := 0; MRU.velocity := 0;
                               MRU.totalTime := 10 |};
              MRU.lastTimeRef := None; MRU.elapsedTime := 4;
              MRU.isRunning := true |} in
  0 < MRU.mapX (MRU.params s) 600 (MRU.currentPosition s) < 600.
Proof.
  intros s.
  refine (proj2 (mru_body_stays_on_canvas s 600 _ _)); simpl; lra.
Defined.


(** ** The projectile's trajectory *)

Lemma projectile_gravity_positive : 0 < ProjectileMotion.GRAVITY.
Proof. unfold ProjectileMotion.GRAVITY, InclinedPlane.GRAVITY. lra. Qed.

(** Launched from a height that is not negative, the flight takes a time
    that is not negative. *)
Lemma projectile_timeOfFlight_nonneg p :
  0 <= ProjectileMotion.height p -> 0 <= ProjectileMotion.timeOfFlight p.
Proof.
  intros Hh. pose proof projectile_gravity_positive as Hg.
  unfold ProjectileMotion.timeOfFlight.
  set (vy := ProjectileMotion.v0y p).
  assert (Hs : Rabs vy
               <= sqrt (vy ^ 2
                        + 2 * ProjectileMotion.GRAVITY
                          * ProjectileMotion.height p)).
  { rewrite <- sqrt_Rsqr_abs. apply sqrt_le_1_alt. unfold Rsqr.
    assert (0 <= 2 * ProjectileMotion.GRAVITY * ProjectileMotion.height p)
      by (apply Rmult_le_pos; lra).
    lra. }
  assert (Hm : - vy <= Rabs vy) by (rewrite <- Rabs_Ropp; apply Rle_abs).
  unfold Rdiv.
  apply Rmult_le_pos; [lra|]. left. apply Rinv_0_lt_compat. exact Hg.
Qed.

Lemma INR_steps : INR ProjectileMotion.steps = 100.
Proof.
  unfold ProjectileMotion.steps. rewrite INR_IZR_INZ. reflexivity.
Qed.

(** What a sample of the trajectory can be: the sample of a grid time
    [i/100] of the flight that passed the height test, or the final
    sample on the ground. *)
Lemma trajectory_sample_cases p s :
  s ∈ ProjectileMotion.trajectoryData p ->
  (exists i, (i <= 100)%nat
     /\ ProjectileMotion.time s
        = INR i / 100 * ProjectileMotion.timeOfFlight p
     /\ ProjectileMotion.x s
        = ProjectileMotion.v0x p * ProjectileMotion.time s
     /\ ProjectileMotion.y s
        = ProjectileMotion.heightAt p (ProjectileMotion.time s)
     /\ 0 <= ProjectileMotion.y s)
  \/ s = {| ProjectileMotion.time := ProjectileMotion.timeOfFlight p;
            ProjectileMotion.x
              := ProjectileMotion.v0x p * ProjectileMotion.timeOfFlight p;
            ProjectileMotion.y := 0 |}.
Proof.
  unfold ProjectileMotion.trajectoryData. intros H.
  apply elem_of_app in H as [H|H].
  - left. apply list_elem_of_In, in_flat_map in H as (i & Hi & Hs).
    apply list_elem_of_In, elem_of_seq in Hi.
    unfold ProjectileMotion.sampleAt in Hs. rewrite INR_steps in Hs.
    match type of Hs with context [geb ?a ?b] => case_geb a b end;
      [|destruct Hs].
    destruct Hs as [<-|[]]. exists i.
    cbn [ProjectileMotion.time ProjectileMotion.x ProjectileMotion.y].
    unfold ProjectileMotion.steps in Hi.
    repeat split; try reflexivity; [lia | exact E].
  - right. apply list_elem_of_singleton in H. exact H.
Qed.

(** X17: Whatever the parameters, no sample of the trajectory is below the
    ground, and the trajectory has at least 1 and at most 102 samples. *)
Theorem trajectory_above_ground p :
  Forall (fun s => 0 <= ProjectileMotion.y s)
    (ProjectileMotion.trajectoryData p)
  /\ (1 <= List.length (ProjectileMotion.trajectoryData p) <= 102)%nat.
Proof.
  split.
  - apply Forall_forall. intros s Hs.
    destruct (trajectory_sample_cases p s Hs) as [(i & _ & _ & _ & _ & H) | ->];
      [exact H | simpl; lra].
  - unfold ProjectileMotion.trajectoryData.
    rewrite length_app. cbn [List.length].
    assert (H : forall l,
              (List.length (flat_map (ProjectileMotion.sampleAt p) l)
               <= List.length l)%nat).
    { induction l as [|i l IH]; [reflexivity|].
      cbn [flat_map]. rewrite length_app. cbn [List.length].
      unfold ProjectileMotion.sampleAt at 1.
      match goal with |- context [geb ?a ?b] => destruct (geb a b) end;
        simpl; lia. }
    specialize (H (seq 0 (S ProjectileMotion.steps))).
    rewrite length_seq in H. unfold ProjectileMotion.steps in *. lia.
Qed.

(** X18: For parameters in the sliders' ranges (speed and height not
    negative, angle between 0 and 90 degrees) every sample lies within
    the read-outs of time and range and not below the ground: its time
    between 0 and the time of flight, its distance between 0 and the
    range, its height not negative. *)
Theorem trajectory_within_readouts p :
  0 <= ProjectileMotion.velocity p ->
  0 <= ProjectileMotion.angle p <= 90 ->
  0 <= ProjectileMotion.height p ->
  Forall (fun s =>
            0 <= ProjectileMotion.time s <= ProjectileMotion.timeOfFlight p
            /\ 0 <= ProjectileMotion.x s <= ProjectileMotion.range p
            /\ 0 <= ProjectileMotion.y s)
    (ProjectileMotion.trajectoryData p).
Proof.
  intros Hv [Ha0 Ha1] Hh.
  pose proof (projectile_timeOfFlight_nonneg p Hh) as HT.
  pose proof PI_RGT_0 as Hpi.
  assert (Hvx : 0 <= ProjectileMotion.v0x p).
  { unfold ProjectileMotion.v0x. apply Rmult_le_pos; [exact Hv|].
    apply cos_ge_0; unfold ProjectileMotion.angleRad; nra. }
  assert (Hr : ProjectileMotion.range p
               = ProjectileMotion.v0x p * ProjectileMotion.timeOfFlight p)
    by reflexivity.
  apply Forall_forall. intros s Hs.
  destruct (trajectory_sample_cases p s Hs)
    as [(i & Hi & Ht & Hx & Hy & Hy0) | ->].
  - assert (Hf : 0 <= INR i / 100 <= 1).
    { pose proof (pos_INR i). apply le_INR in Hi.
      change 100%nat with ProjectileMotion.steps in Hi.
      rewrite INR_steps in Hi. lra. }
    assert (Htime : 0 <= ProjectileMotion.time s
                    <= ProjectileMotion.timeOfFlight p)
      by (rewrite Ht; nra).
    split; [exact Htime|]. split.
    + rewrite Hx, Hr. nra.
    + exact Hy0.
  - simpl. rewrite Hr. repeat split; try lra. nra.
Qed.

Lemma trajectory_within_readouts_witness :
  Forall (fun s =>
            0 <= ProjectileMotion.time s
            <= ProjectileMotion.timeOfFlight projectileDefaults
            /\ 0 <= ProjectileMotion.x s
               <= ProjectileMotion.range projectileDefaults
            /\ 0 <= ProjectileMotion.y s)
    (ProjectileMotion.trajectoryData projectileDefaults).
Proof.
  apply trajectory_within_readouts; simpl; lra.
Defined.

(** X19: Launched from a height that is not negative, the trajectory begins
    with the launch point: time 0, distance 0, the initial height. *)
Theorem trajectory_starts_at_launch p :
  0 <= ProjectileMotion.height p ->
  exists s,
    head (ProjectileMotion.trajectoryData p) = Some s
    /\ ProjectileMotion.time s = 0
    /\ ProjectileMotion.x s = 0
    /\ ProjectileMotion.y s = ProjectileMotion.height p.
Proof.
  intros Hh. unfold ProjectileMotion.trajectoryData.
  change (seq 0 (S ProjectileMotion.steps))
    with (0%nat :: seq 1 ProjectileMotion.steps).
  cbn [flat_map]. unfold ProjectileMotion.sampleAt at 1.
  assert (T0 : INR 0 / INR ProjectileMotion.steps
               * ProjectileMotion.timeOfFlight p = 0)
    by (rewrite INR_steps; simpl; lra).
  rewrite T0.
  assert (Y0 : ProjectileMotion.heightAt p 0 = ProjectileMotion.height p)
    by (unfold ProjectileMotion.heightAt; ring).
  case_geb (ProjectileMotion.heightAt p 0) 0; [|lra].
  eexists. split; [reflexivity|]. simpl.
  repeat split; [ring | exact Y0].
Qed.

Lemma trajectory_starts_at_launch_witness :
  exists s,
    head (ProjectileMotion.trajectoryData projectileDefaults) = Some s
    /\ ProjectileMotion.time s = 0
    /\ ProjectileMotion.x s = 0
    /\ ProjectileMotion.y s = 0.
Proof.
  apply (trajectory_starts_at_launch projectileDefaults). simpl. lra.
Defined.

(** ** The projectile's playback *)

(** X20: While frames do not go back in time a step never lets the progress
    fall below what earlier runs had reached nor rise above 100; reaching
    100 stops the playback and clears both refs.  The first frame after a
    start only records its timestamp, and a frame 3 seconds or more after
    the recorded start completes the playback. *)
Theorem playback_step_progress timestamp a :
  0 <= ProjectileMotion.lastProgressRef a <= 100 ->
  match ProjectileMotion.startTimeRef a with
  | Some t0 => t0 <= timestamp
  | None => True
  end ->
  let a' := ProjectileMotion.step timestamp a in
  ProjectileMotion.lastProgressRef a
  <= ProjectileMotion.animationProgress a' <= 100
  /\ (ProjectileMotion.animationProgress a' = 100 ->
      ProjectileMotion.isRunning a' = false
      /\ ProjectileMotion.startTimeRef a' = None
      /\ ProjectileMotion.lastProgressRef a' = 0)
  /\ (ProjectileMotion.startTimeRef a = None ->
      ProjectileMotion.lastProgressRef a < 100 ->
      ProjectileMotion.animationProgress a'
      = ProjectileMotion.lastProgressRef a
      /\ ProjectileMotion.startTimeRef a' = Some timestamp)
  /\ (forall t0,
        ProjectileMotion.startTimeRef a = Some t0 -> t0 <> 0 ->
        ProjectileMotion.animationDuration <= timestamp - t0 ->
        ProjectileMotion.animationProgress a' = 100
        /\ ProjectileMotion.isRunning a' = false).
Proof.
  intros [Hl0 Hl1] Hstart a'. subst a'. unfold ProjectileMotion.step.
  set (start := match ProjectileMotion.startTimeRef a with
                | Some t => if Req_dec_T t 0 then timestamp else t
                | None => timestamp
                end).
  assert (Hs : start <= timestamp).
  { unfold start. destruct (ProjectileMotion.startTimeRef a) as [t|];
      [destruct (Req_dec_T t 0)|]; lra. }
  set (progress := Rmin ((timestamp - start)
                         / ProjectileMotion.animationDuration * 100) 100).
  assert (Hp : 0 <= progress <= 100).
  { unfold progress, ProjectileMotion.animationDuration. split.
    - apply Rmin_glb; lra.
    - apply Rmin_r. }
  case_ltb (ProjectileMotion.lastProgressRef a + progress) 100; simpl.
  - split; [lra|]. split; [lra|]. split.
    + intros Hn _. split.
      * assert (progress = 0).
        { unfold progress, start. rewrite Hn.
          replace ((timestamp - timestamp)
                   / ProjectileMotion.animationDuration * 100) with 0
            by (unfold ProjectileMotion.animationDuration; lra).
          apply Rmin_left. lra. }
        lra.
      * unfold start. rewrite Hn. reflexivity.
    + intros t0 Ht0 Hnz Hdur. exfalso.
      assert (progress = 100).
      { unfold progress, start. rewrite Ht0.
        destruct (Req_dec_T t0 0); [contradiction|].
        apply Rmin_right.
        unfold ProjectileMotion.animationDuration in *. lra. }
      lra.
  - split; [lra|]. split; [intros _; repeat split|]. split.
    + intros Hn Hlt. exfalso.
      assert (progress = 0).
      { unfold progress, start. rewrite Hn.
        replace ((timestamp - timestamp)
                 / ProjectileMotion.animationDuration * 100) with 0
          by (unfold ProjectileMotion.animationDuration; lra).
        apply Rmin_left. lra. }
      lra.
    + intros; split; reflexivity.
Qed.

Lemma playback_step_progress_witness :
  let a := {| ProjectileMotion.isRunning := true;
              ProjectileMotion.animationProgress := 40;
              ProjectileMotion.startTimeRef := Some 1000;
              ProjectileMotion.lastProgressRef := 40 |} in
  40 <= ProjectileMotion.animationProgress (ProjectileMotion.step 1600 a)
  <= 100.
Proof.
  intros a.
  refine (proj1 (playback_step_progress 1600 a _ _)); simpl; lra.
Defined.

(** [Math.ceil] returns the least integer not below its argument. *)
Lemma ceil_bounds a :
  IZR (ProjectileMotion.ceil a) - 1 < a <= IZR (ProjectileMotion.ceil a).
Proof.
  unfold ProjectileMotion.ceil. rewrite opp_IZR.
  destruct (base_Int_part (- a)) as [H1 H2]. lra.
Qed.

Lemma trajectory_nonempty p :
  exists s rest, ProjectileMotion.trajectoryData p = s :: rest.
Proof.
  unfold ProjectileMotion.trajectoryData.
  destruct (flat_map (ProjectileMotion.sampleAt p)
              (seq 0 (S ProjectileMotion.steps))) as [|s rest];
    simpl; eauto.
Qed.

(** X21: For a progress between 0 and 100 the chart shows the first [m]
    samples of the trajectory, [m] being the number of samples times the
    progress fraction, rounded up: nothing at 0, the whole trajectory at
    100, and at least the launch point as soon as the progress is
    positive. *)
Theorem displayed_trajectory_is_prefix p progress :
  0 <= progress <= 100 ->
  let data := ProjectileMotion.trajectoryData p in
  let shown := ProjectileMotion.displayedTrajectory p progress in
  (exists m, (m <= List.length data)%nat
     /\ shown = take m data
     /\ INR m - 1 < INR (List.length data) * (progress / 100) <= INR m)
  /\ (progress = 0 -> shown = [])
  /\ (progress = 100 -> shown = data)
  /\ (0 < progress -> head shown = head data).
Proof.
  intros [Hp0 Hp1] data shown.
  set (n := List.length data).
  set (a := INR n * (progress / 100)).
  set (z := ProjectileMotion.ceil a).
  pose proof (ceil_bounds a) as Hz. fold z in Hz.
  pose proof (pos_INR n) as Hn.
  assert (Ha : 0 <= a <= INR n) by (unfold a; split; nra).
  assert (Hz0 : (0 <= z)%Z).
  { apply le_IZR. lra. }
  assert (Hzn : (z <= Z.of_nat n)%Z).
  { apply Z.lt_succ_r. apply lt_IZR. rewrite succ_IZR, <- INR_IZR_INZ. lra. }
  assert (Hshown : shown = take (Z.to_nat z) data).
  { unfold shown, ProjectileMotion.displayedTrajectory, ProjectileMotion.slice0.
    fold data. fold n. fold a. fold z.
    destruct (Z.ltb_spec z 0); [lia | reflexivity]. }
  assert (Hm : INR (Z.to_nat z) = IZR z).
  { rewrite INR_IZR_INZ, Z2Nat.id by exact Hz0. reflexivity. }
  split; [|split; [|split]].
  - exists (Z.to_nat z). split; [fold n; lia|]. split; [exact Hshown|].
    rewrite Hm. exact Hz.
  - intros E. rewrite Hshown.
    assert (z = 0%Z).
    { assert (a = 0) by (unfold a; rewrite E; lra).
      assert (IZR z < 1) by lra. apply lt_IZR in H0. lia. }
    subst z. rewrite H. reflexivity.
  - intros E. rewrite Hshown.
    assert (z = Z.of_nat n).
    { assert (a = INR n) by (unfold a; rewrite E; lra).
      assert (IZR (Z.of_nat n) <= IZR z) by (rewrite <- INR_IZR_INZ; lra).
      apply le_IZR in H0. lia. }
    rewrite H, Nat2Z.id. apply take_ge. reflexivity.
  - intros Hpos. rewrite Hshown.
    destruct (trajectory_nonempty p) as (s & rest & Hd).
    fold data in Hd.
    assert (0 < a).
    { unfold a. assert (1 <= INR n).
      { unfold n. rewrite Hd. cbn [List.length]. rewrite S_INR.
        pose proof (pos_INR (List.length rest)). lra. }
      nra. }
    assert (0 < z)%Z by (apply lt_IZR; lra).
    destruct (Z.to_nat z) as [|m] eqn:Em; [lia|].
    rewrite Hd. reflexivity.
Qed.

Lemma displayed_trajectory_is_prefix_witness :
  ProjectileMotion.displayedTrajectory projectileDefaults 100
  = ProjectileMotion.trajectoryData projectileDefaults.
Proof.
  refine (proj1 (proj2 (proj2 (displayed_trajectory_is_prefix
                                 projectileDefaults 100 _))) _);
    [lra | reflexivity].
Defined.

(** ** The particle simulator: the population of a reset *)

(** The charge drawn from a number in [0, 1) is -1, 0 or 1. *)
Lemma floor_of_three_draws u :
  0 <= u < 1 ->
  ParticleSimulator.floor (u * 3) = 0
  \/ ParticleSimulator.floor (u * 3) = 1
  \/ ParticleSimulator.floor (u * 3) = 2.
Proof.
  intros [H0 H1]. unfold ParticleSimulator.floor.
  destruct (base_Int_part (u * 3)) as [L U].
  set (z := Int_part (u * 3)) in *.
  assert (-1 < z)%Z by (apply lt_IZR; lra).
  assert (z < 3)%Z by (apply lt_IZR; lra).
  assert (z = 0 \/ z = 1 \/ z = 2)%Z as [->|[->| ->]] by lia; auto.
Qed.

Lemma particleOf_fresh cv u0 u1 u2 u3 u4 :
  0 <= ParticleSimulator.width cv -> 0 <= ParticleSimulator.height cv ->
  0 <= u0 < 1 -> 0 <= u1 < 1 -> 0 <= u2 < 1 -> 0 <= u3 < 1 -> 0 <= u4 < 1 ->
  freshParticle cv (particleOf cv u0 u1 u2 u3 u4).
Proof.
  intros Hw Hh H0 H1 H2 H3 H4.
  unfold particleOf, ParticleSimulator.newParticle, ParticleSimulator.random.
  cbn [ParticleSimulator.draws ParticleSimulator.cursor].
  unfold ParticleSimulator.eqb.
  assert (Hbox : 0 <= u1 * ParticleSimulator.width cv
                      <= ParticleSimulator.width cv
                 /\ 0 <= u2 * ParticleSimulator.height cv
                         <= ParticleSimulator.height cv) by nra.
  destruct (floor_of_three_draws u0 H0) as [E|[E|E]]; rewrite E;
    repeat match goal with
           | |- context [Req_dec_T ?a ?b] =>
               destruct (Req_dec_T a b); try lra
           end;
    unfold freshParticle, insideCanvas; simpl;
    (split; [|split; [exact Hbox | split; lra]]).
  - right. left. repeat split; lra.
  - right. right. repeat split; lra.
  - left. repeat split; lra.
Qed.

Lemma resetLoop_fresh n cv r :
  0 <= ParticleSimulator.width cv -> 0 <= ParticleSimulator.height cv ->
  unitDraws r ->
  List.length (fst (ParticleSimulator.resetLoop n cv r [])) = n
  /\ Forall (freshParticle cv) (fst (ParticleSimulator.resetLoop n cv r [])).
Proof.
  intros Hw Hh. revert r. induction n as [|n IH]; intros r Hr.
  - split; [reflexivity | constructor].
  - simpl. rewrite newParticle_draws. rewrite resetLoop_unfold.
    cbn [fst]. destruct (IH (advance r 5)) as [IL IF]; [exact Hr|].
    split.
    + rewrite length_app. cbn [List.length]. rewrite IL. reflexivity.
    + apply Forall_app. split; [|exact IF].
      apply Forall_singleton.
      apply particleOf_fresh; try assumption; apply Hr.
Qed.

(** X22: With the canvas in place and draws in [0, 1), a reset stops the
    simulation, consumes 250 draws and leaves exactly 50 bodies, each of
    one of the three charge classes with its mass and radius, inside the
    canvas, with velocity components in [-1, 1). *)
Theorem reset_population_well_formed s cv r :
  ParticleSimulator.canvasRef s = Some cv ->
  0 <= ParticleSimulator.width cv -> 0 <= ParticleSimulator.height cv ->
  unitDraws r ->
  let s' := fst (ParticleSimulator.resetSimulation s r) in
  let r' := snd (ParticleSimulator.resetSimulation s r) in
  ParticleSimulator.isRunning s' = false
  /\ ParticleSimulator.cursor r' = (ParticleSimulator.cursor r + 250)%nat
  /\ List.length (ParticleSimulator.particles s') = 50%nat
  /\ Forall (freshParticle cv) (ParticleSimulator.particles s').
Proof.
  intros Hcv Hw Hh Hr s' r'. subst s' r'.
  rewrite (resetSimulation_canvas s cv r Hcv). cbn [fst snd].
  cbn [ParticleSimulator.isRunning ParticleSimulator.particles].
  split; [reflexivity|]. split; [reflexivity|].
  apply resetLoop_fresh; assumption.
Qed.

Lemma reset_population_well_formed_witness :
  List.length
    (ParticleSimulator.particles
       (fst (ParticleSimulator.resetSimulation
               {| ParticleSimulator.particles := [];
                  ParticleSimulator.isRunning := true;
                  ParticleSimulator.canvasRef := Some canvas800 |}
               drawsZeroThenHalf))) = 50%nat.
Proof.
  refine (proj1 (proj2 (proj2 (reset_population_well_formed _ canvas800
                                 drawsZeroThenHalf _ _ _ _)))).
  - reflexivity.
  - simpl. lra.
  - simpl. lra.
  - intros n. simpl. destruct (n <? 250)%nat; lra.
Defined.

(** ** The particle simulator: what frames keep *)

Lemma wallCollisions_identity cv p :
  identity (ParticleSimulator.wallCollisions cv p) = identity p.
Proof. reflexivity. Qed.

Lemma integrate_identity a p :
  identity (ParticleSimulator.integrate a p) = identity p.
Proof. reflexivity. Qed.

Lemma updateParticle_identity cv gravity electrostatics ps i :
  identity <$> ParticleSimulator.updateParticle cv gravity electrostatics ps i
  = identity <$> ps.
Proof.
  unfold ParticleSimulator.updateParticle.
  destruct (ps !! i) as [p|] eqn:E; [|reflexivity].
  rewrite list_fmap_insert, wallCollisions_identity, integrate_identity.
  apply list_insert_id. rewrite list_lookup_fmap, E. reflexivity.
Qed.

Lemma gameLoop_identity canvas gravity electrostatics ps :
  identity <$> ParticleSimulator.gameLoop canvas gravity electrostatics ps
  = identity <$> ps.
Proof.
  destruct canvas as [cv|]; [|reflexivity].
  unfold ParticleSimulator.gameLoop, ParticleSimulator.turns.
  generalize (seq 0 (List.length ps)). intros l. revert ps.
  induction l as [|i l IH]; intros ps; [reflexivity|].
  cbn [foldl]. rewrite IH. apply updateParticle_identity.
Qed.

(** X23: However many frames run, the population keeps its size and every
    body keeps its place in the array, its radius, mass, charge and
    colour: no body is added, removed, reordered or altered in kind. *)
Theorem frames_keep_the_population canvas gravity electrostatics
    timestamps ps :
  let ps' := ParticleSimulator.runFrames canvas gravity electrostatics
               timestamps ps in
  identity <$> ps' = identity <$> ps
  /\ List.length ps' = List.length ps.
Proof.
  intros ps'.
  assert (H : identity <$> ps' = identity <$> ps).
  { subst ps'. unfold ParticleSimulator.runFrames. revert ps.
    induction timestamps as [|t ts IH]; intros ps; [reflexivity|].
    cbn [foldl]. rewrite IH. unfold ParticleSimulator.frame.
    apply gameLoop_identity. }
  split; [exact H|].
  apply (f_equal List.length) in H. rewrite !length_fmap in H. exact H.
Qed.

Lemma gameLoop_inside cv gravity electrostatics ps :
  0 <= ParticleSimulator.width cv -> 0 <= ParticleSimulator.height cv ->
  Forall (insideCanvas cv)
    (ParticleSimulator.gameLoop (Some cv) gravity electrostatics ps).
Proof.
  intros Hw Hh. apply Forall_lookup. intros i p' Hp'.
  destruct (gameLoop_lookup cv gravity electrostatics ps i p' Hp')
    as (p & _ & ->).
  apply wallCollisions_inside; assumption.
Qed.

(** X24: Once a frame has run with the canvas in place, every body is inside
    the canvas, and stays inside after every later frame. *)
Theorem frames_keep_bodies_inside cv gravity electrostatics timestamps ps :
  0 <= ParticleSimulator.width cv -> 0 <= ParticleSimulator.height cv ->
  timestamps <> [] ->
  Forall (insideCanvas cv)
    (ParticleSimulator.runFrames (Some cv) gravity electrostatics
       timestamps ps).
Proof.
  intros Hw Hh Hne.
  destruct (exists_last Hne) as (ts & t & ->).
  unfold ParticleSimulator.runFrames. rewrite foldl_app. cbn [foldl].
  unfold ParticleSimulator.frame at 1.
  apply gameLoop_inside; assumption.
Qed.

Lemma frames_keep_bodies_inside_witness :
  Forall (insideCanvas canvas800)
    (ParticleSimulator.runFrames (Some canvas800) 0.1 1 [16; 33]
       [particleAt 799 300 5 0 2.1 0; particleAt (-4) 900 0 0 1 (-1)]).
Proof.
  apply frames_keep_bodies_inside; [simpl; lra | simpl; lra | discriminate].
Defined.

(** ** The particle simulator: the force model *)

(** A pair contributes nothing when gravity is switched off and either
    electrostatics is switched off too or one of the two bodies is
    neutral. *)
Lemma pairForce_none electrostatics p q f :
  electrostatics = 0 \/ ParticleSimulator.charge p = 0
  \/ ParticleSimulator.charge q = 0 ->
  ParticleSimulator.pairForce 0 electrostatics p q f = f.
Proof.
  intros H. unfold ParticleSimulator.pairForce.
  match goal with |- context [gtb ?a ?b] => destruct (gtb a b) end;
    [|reflexivity].
  destruct f as [fx fy]. cbn [fst snd].
  destruct H as [->|[->| ->]]; f_equal; unfold Rdiv; ring.
Qed.

Lemma forceLoop_none electrostatics i p j rest f :
  electrostatics = 0 \/ ParticleSimulator.charge p = 0 ->
  ParticleSimulator.forceLoop 0 electrostatics i p j rest f = f.
Proof.
  intros H. revert j f. induction rest as [|q rest IH]; intros j f;
    [reflexivity|].
  cbn [ParticleSimulator.forceLoop]. rewrite IH.
  destruct (Nat.eqb i j); [reflexivity|].
  apply pairForce_none. tauto.
Qed.

(** X25: With gravity switched off, a neutral body (or any body, when
    electrostatics is switched off as well) is not accelerated by the
    others: in a tick it moves by its own velocity and only the walls
    change its course. *)
Theorem unforced_body_flies_straight cv electrostatics ps i p p' :
  ps !! i = Some p ->
  electrostatics = 0 \/ ParticleSimulator.charge p = 0 ->
  ParticleSimulator.gameLoop (Some cv) 0 electrostatics ps !! i = Some p' ->
  p' = ParticleSimulator.wallCollisions cv
         (ParticleSimulator.integrate (0, 0) p)
  /\ ParticleSimulator.x p'
     = Rmax 0 (Rmin (ParticleSimulator.width cv)
                 (ParticleSimulator.x p + ParticleSimulator.vx p))
  /\ (0 <= ParticleSimulator.x p + ParticleSimulator.vx p
           <= ParticleSimulator.width cv ->
      ParticleSimulator.vx p' = ParticleSimulator.vx p).
Proof.
  intros Hp Hq Hp'.
  destruct (gameLoop_lookup cv 0 electrostatics ps i p' Hp')
    as (p0 & Hp0 & E).
  rewrite Hp in Hp0. injection Hp0 as <-.
  assert (A : ParticleSimulator.acceleration 0 electrostatics
                (ParticleSimulator.turns cv 0 electrostatics i ps) i p
              = (0, 0)).
  { unfold ParticleSimulator.acceleration.
    rewrite forceLoop_none by exact Hq. cbn [fst snd]. f_equal; lra. }
  rewrite A in E. split; [exact E|]. rewrite E. simpl. split.
  - do 2 f_equal. lra.
  - intros [H0 H1].
    case_ltb (ParticleSimulator.x p + (ParticleSimulator.vx p + 0)) 0;
      [lra|].
    case_gtb (ParticleSimulator.x p + (ParticleSimulator.vx p + 0))
      (ParticleSimulator.width cv); [lra|].
    simpl. lra.
Qed.

Lemma unforced_body_flies_straight_witness :
  exists p',
    ParticleSimulator.gameLoop (Some canvas800) 0 3
      [particleAt 10 10 1 2 2.1 0; particleAt 20 10 0 0 2 1] !! 0%nat
    = Some p'
    /\ ParticleSimulator.vx p' = 1.
Proof.
  pose (p := particleAt 10 10 1 2 2.1 0).
  pose (ps := [p; particleAt 20 10 0 0 2 1]).
  destruct (lookup_lt_is_Some_2
              (ParticleSimulator.gameLoop (Some canvas800) 0 3 ps) 0)
    as [p' Hp'].
  { pose proof (gameLoop_identity (Some canvas800) 0 3 ps) as H.
    apply (f_equal List.length) in H. rewrite !length_fmap in H.
    rewrite H. simpl. lia. }
  exists p'. split; [exact Hp'|].
  destruct (unforced_body_flies_straight canvas800 3 ps 0 p p'
              eq_refl (or_intror eq_refl) Hp') as (_ & _ & Hv).
  rewrite Hv; [reflexivity | simpl; lra].
Defined.

(** The separation of two bodies does not depend on which one asks. *)
Lemma separation_sym p q : separation p q = separation q p.
Proof. unfold separation. f_equal. ring. Qed.

(** X26: Action and reaction: computed on the same positions, the force of
    [q] on [p] is the opposite of the force of [p] on [q]. *)
Theorem pair_force_is_antisymmetric gravity electrostatics p q :
  ParticleSimulator.pairForce gravity electrostatics p q (0, 0)
  = (- fst (ParticleSimulator.pairForce gravity electrostatics q p (0, 0)),
     - snd (ParticleSimulator.pairForce gravity electrostatics q p (0, 0))).
Proof.
  unfold ParticleSimulator.pairForce.
  fold (separation p q). fold (separation q p).
  rewrite (separation_sym q p).
  replace ((ParticleSimulator.x p - ParticleSimulator.x q)
           * (ParticleSimulator.x p - ParticleSimulator.x q)
           + (ParticleSimulator.y p - ParticleSimulator.y q)
             * (ParticleSimulator.y p - ParticleSimulator.y q))
    with ((ParticleSimulator.x q - ParticleSimulator.x p)
          * (ParticleSimulator.x q - ParticleSimulator.x p)
          + (ParticleSimulator.y q - ParticleSimulator.y p)
            * (ParticleSimulator.y q - ParticleSimulator.y p)) by ring.
  destruct (gtb (separation p q) 2); cbn [fst snd].
  - f_equal; unfold Rdiv; ring.
  - f_equal; ring.
Qed.

(** Beyond the threshold the force of [q] on [p] points along the line
    between them with the coefficient
    [(G g m_p m_q - k e q_p q_q) / d^3]. *)
Lemma pairForce_closed_form gravity electrostatics p q :
  2 < separation p q ->
  let d := separation p q in
  let c := (ParticleSimulator.G * gravity * ParticleSimulator.mass p
            * ParticleSimulator.mass q
            - ParticleSimulator.k * electrostatics
              * ParticleSimulator.charge p * ParticleSimulator.charge q)
           / (d * d * d) in
  ParticleSimulator.pairForce gravity electrostatics p q (0, 0)
  = (c * (ParticleSimulator.x q - ParticleSimulator.x p),
     c * (ParticleSimulator.y q - ParticleSimulator.y p)).
Proof.
  intros H d c.
  assert (Hsq : d * d
                = (ParticleSimulator.x q - ParticleSimulator.x p)
                  * (ParticleSimulator.x q - ParticleSimulator.x p)
                  + (ParticleSimulator.y q - ParticleSimulator.y p)
                    * (ParticleSimulator.y q - ParticleSimulator.y p)).
  { unfold d, separation. apply sqrt_sqrt.
    pose proof (Rle_0_sqr (ParticleSimulator.x q - ParticleSimulator.x p)).
    pose proof (Rle_0_sqr (ParticleSimulator.y q - ParticleSimulator.y p)).
    unfold Rsqr in *. lra. }
  unfold ParticleSimulator.pairForce. fold (separation p q). fold d.
  rewrite <- Hsq.
  case_gtb d 2; [|unfold d in *; lra].
  subst c. cbn [fst snd]. f_equal; field; lra.
Qed.

(** X27: Beyond the threshold gravity and electrostatics compete: the pull on
    a body of positive mass is toward the other body when
    [G g m_p m_q > k e q_p q_q], away from it when it is smaller, and
    nothing when the two balance.  In particular gravity alone always
    attracts. *)
Theorem pair_force_direction gravity electrostatics p q :
  0 < ParticleSimulator.mass p ->
  2 < separation p q ->
  let f := ParticleSimulator.pairForce gravity electrostatics p q (0, 0) in
  let a := (fst f / ParticleSimulator.mass p,
            snd f / ParticleSimulator.mass p) in
  let pull := ParticleSimulator.G * gravity * ParticleSimulator.mass p
              * ParticleSimulator.mass q in
  let push := ParticleSimulator.k * electrostatics
              * ParticleSimulator.charge p * ParticleSimulator.charge q in
  (push < pull -> directed_toward a p q)
  /\ (pull < push -> directed_away a p q)
  /\ (pull = push -> a = (0, 0)).
Proof.
  intros Hm Hd f a pull push. subst a f.
  rewrite (pairForce_closed_form gravity electrostatics p q Hd).
  cbn [fst snd]. fold pull. fold push.
  set (d := separation p q) in *.
  assert (Hd3 : 0 < d * d * d * ParticleSimulator.mass p)
    by (repeat apply Rmult_lt_0_compat; lra).
  split; [|split].
  - intros H. exists ((pull - push) / (d * d * d * ParticleSimulator.mass p)).
    split; [apply Rdiv_lt_0_compat; lra|]. f_equal; field; lra.
  - intros H. exists ((push - pull) / (d * d * d * ParticleSimulator.mass p)).
    split; [apply Rdiv_lt_0_compat; lra|]. f_equal; field; lra.
  - intros ->. f_equal; field; lra.
Qed.

Lemma pair_force_direction_witness :
  let p := particleAt 100 100 0 0 2 0 in
  let q := particleAt 110 100 0 0 2.1 0 in
  directed_toward
    (fst (ParticleSimulator.pairForce 0.1 1 p q (0, 0))
     / ParticleSimulator.mass p,
     snd (ParticleSimulator.pairForce 0.1 1 p q (0, 0))
     / ParticleSimulator.mass p) p q.
Proof.
  intros p q.
  refine (proj1 (pair_force_direction 0.1 1 p q _ _) _).
  - simpl. lra.
  - unfold separation. simpl.
    rewrite (sqrt_of_square_plus_zero _ _ 10) by lra. lra.
  - unfold ParticleSimulator.G, ParticleSimulator.k. simpl. lra.
Defined.

(** ** Wave interference *)



(** X29: The pattern is a mirror image of itself about the horizontal line
    through the middle of the canvas, on which the two sources are
    centred. *)
Theorem wave_pattern_is_mirror_symmetric p width height phase x y :
  WaveInterference.value p width height phase x (height - y)
  = WaveInterference.value p width height phase x y.
Proof.
  unfold WaveInterference.value, WaveInterference.source1,
    WaveInterference.source2. cbn [fst snd].
  replace ((height - y - (height / 2 - WaveInterference.distance p / 2)) ^ 2)
    with ((y - (height / 2 + WaveInterference.distance p / 2)) ^ 2)
    by field.
  replace ((height - y - (height / 2 + WaveInterference.distance p / 2)) ^ 2)
    with ((y - (height / 2 - WaveInterference.distance p / 2)) ^ 2)
    by field.
  apply Rplus_comm.
Qed.

(** X30: The two waves add up to a value between -2 and 2, so for an amplitude
    that is not negative the number written to the red channel lies
    above [-amplitude - 1] and not above [3 amplitude]. *)
Theorem wave_brightness_range p width height phase x y :
  0 <= WaveInterference.amplitude p ->
  -2 <= WaveInterference.value p width height phase (INR x) (INR y) <= 2
  /\ - WaveInterference.amplitude p - 1
     < WaveInterference.brightness p width height phase x y
     <= 3 * WaveInterference.amplitude p.
Proof.
  intros Ha.
  assert (Hv : -2 <= WaveInterference.value p width height phase
                       (INR x) (INR y) <= 2).
  { unfold WaveInterference.value.
    match goal with
    | |- _ <= sin ?a + sin ?b <= _ =>
        pose proof (SIN_bound a); pose proof (SIN_bound b)
    end.
    lra. }
  split; [exact Hv|].
  unfold WaveInterference.brightness, ParticleSimulator.floor.
  set (v := WaveInterference.value p width height phase (INR x) (INR y))
    in *.
  destruct (base_Int_part (WaveInterference.amplitude p * (1 + v)))
    as [L U].
  split; nra.
Qed.

Lemma wave_brightness_range_witness :
  let p := {| WaveInterference.wavelength := 30;
              WaveInterference.distance := 80;
              WaveInterference.amplitude := 128;
              WaveInterference.waveSpeed := 25 |} in
  WaveInterference.brightness p 600 400 0 150 200 <= 3 * 128.
Proof.
  intros p.
  refine (proj2 (proj2 (wave_brightness_range p 600 400 0 150 200 _))).
  simpl. lra.
Defined.
